(** * my-finance-bot: client-side derived state of the dashboard

    Shallow embedding of the four pieces of logic of the React frontend:
    - the calendar aggregation and the optimistic status update of
      [components/RecurringPayments.jsx],
    - the optimistic status update of [components/PendingPayments.jsx],
    - the price polling and the valuation of [hooks/useCryptoPortfolio.js],
    - the savings projection and the concurrent fetch of [pages/Dashboard.jsx].

    JavaScript numbers are modelled by the component that uses them:
    binary64 floats ([PrimFloat]) where a figure is evaluated, rationals
    where amounts are ordered, reals where [Math.pow] takes a fractional
    exponent.  Strings are byte strings, in UTF-8. *)

From Stdlib Require Import ZArith NArith QArith Reals Psatz Lia PrimFloat Ascii String Sorted.
From stdpp Require Import base list gmap strings.

Local Open Scope string_scope.

(** ** JavaScript built-ins used by the components *)

Module Js.

(** [String.prototype.toLowerCase], on the ASCII letters.  Bytes of a
    multi-byte UTF-8 sequence are all above 127 and are left alone. *)
Definition lower_char (c : ascii) : ascii :=
  let n := N_of_ascii c in
  if ((65 <=? n) && (n <=? 90))%N then ascii_of_N (n + 32) else c.

Fixpoint toLowerCase (s : string) : string :=
  match s with
  | EmptyString => EmptyString
  | String c r => String (lower_char c) (toLowerCase r)
  end.

(** [s.includes(pat)] *)
Fixpoint includes (s pat : string) : bool :=
  String.prefix pat s ||
  match s with
  | EmptyString => false
  | String _ r => includes r pat
  end.

(** [Number.prototype.toString] on the integers. *)
Definition digit_char (d : N) : ascii := ascii_of_N (48 + d).

Fixpoint digits_of (fuel : nat) (n : N) (acc : string) : string :=
  match fuel with
  | O => acc
  | S f =>
      let acc' := String (digit_char (n mod 10)) acc in
      if (n / 10 =? 0)%N then acc' else digits_of f (n / 10) acc'
  end.

Definition N_toString (n : N) : string :=
  digits_of (S (N.to_nat (N.log2 n))) n "".

Definition toString (z : Z) : string :=
  match z with
  | Z0 => "0"
  | Zpos p => N_toString (Npos p)
  | Zneg p => String "-" (N_toString (Npos p))
  end.

(** [parseInt(s)] without a radix: leading white space is skipped, a
    sign is read, a [0x] prefix selects radix 16, and the longest prefix
    of digits is converted.  [None] is NaN.

    The white space that [parseInt] skips is the WhiteSpace and
    LineTerminator of ECMAScript.  [is_white] holds the ones of one byte
    (TAB, LF, VT, FF, CR, SP); [is_white2] and [is_white3] hold the UTF-8
    forms of the others: U+00A0; U+1680, U+2000..U+200A, U+2028, U+2029,
    U+202F, U+205F, U+3000 and U+FEFF. *)
Definition is_white (c : ascii) : bool :=
  let n := N_of_ascii c in ((n =? 32) || ((9 <=? n) && (n <=? 13)))%N.

Definition is_white2 (c0 c1 : ascii) : bool :=
  ((N_of_ascii c0 =? 194) && (N_of_ascii c1 =? 160))%N.

Definition is_white3 (c0 c1 c2 : ascii) : bool :=
  let a := N_of_ascii c0 in
  let b := N_of_ascii c1 in
  let c := N_of_ascii c2 in
  ((a =? 225) && (b =? 154) && (c =? 128)
   || (a =? 226) && (b =? 128) &&
      ((128 <=? c) && (c <=? 138) || (c =? 168) || (c =? 169) || (c =? 175))
   || (a =? 226) && (b =? 129) && (c =? 159)
   || (a =? 227) && (b =? 128) && (c =? 128)
   || (a =? 239) && (b =? 187) && (c =? 191))%N.

Fixpoint trimStart (s : string) : string :=
  match s with
  | String c0 r0 =>
      if is_white c0 then trimStart r0
      else
        match r0 with
        | String c1 r1 =>
            if is_white2 c0 c1 then trimStart r1
            else
              match r1 with
              | String c2 r2 => if is_white3 c0 c1 c2 then trimStart r2 else s
              | EmptyString => s
              end
        | EmptyString => s
        end
  | EmptyString => EmptyString
  end.

Definition digit_value (c : ascii) : option N :=
  let n := N_of_ascii c in
  if ((48 <=? n) && (n <=? 57))%N then Some (n - 48)%N
  else if ((97 <=? n) && (n <=? 122))%N then Some (n - 87)%N
  else if ((65 <=? n) && (n <=? 90))%N then Some (n - 55)%N
  else None.

Fixpoint parse_radix (radix : N) (s : string) (acc : option N) : option N :=
  match s with
  | String c r =>
      match digit_value c with
      | Some d =>
          if (d <? radix)%N
          then parse_radix radix r (Some (default 0%N acc * radix + d)%N)
          else acc
      | None => acc
      end
  | EmptyString => acc
  end.

Definition parse_unsigned (s : string) : option N :=
  match s with
  | String c0 (String c1 r) =>
      if Ascii.eqb c0 "0" && (Ascii.eqb c1 "x" || Ascii.eqb c1 "X")
      then parse_radix 16 r None
      else parse_radix 10 s None
  | _ => parse_radix 10 s None
  end.

Definition parseInt (s : string) : option Z :=
  match trimStart s with
  | String c r =>
      if Ascii.eqb c "-" then option_map (fun n => (- Z.of_N n)%Z) (parse_unsigned r)
      else if Ascii.eqb c "+" then option_map Z.of_N (parse_unsigned r)
      else option_map Z.of_N (parse_unsigned (String c r))
  | EmptyString => None
  end.

(** A property name is an array index when it is the canonical decimal
    form of an integer below 2^32 - 1. *)
Definition array_index (s : string) : option N :=
  match parse_radix 10 s None with
  | Some n =>
      if String.eqb (N_toString n) s && (n <=? 4294967294)%N then Some n else None
  | None => None
  end.

Definition is_array_index (s : string) : bool :=
  match array_index s with Some _ => true | None => false end.

(** *** Ordinary objects used as dictionaries

    An object literal [{}] inherits from [Object.prototype]: reading a
    property that is not an own property finds the inherited member. *)
Definition Object_prototype : list string :=
  [ "constructor"; "__defineGetter__"; "__defineSetter__"; "hasOwnProperty";
    "__lookupGetter__"; "__lookupSetter__"; "isPrototypeOf";
    "propertyIsEnumerable"; "toString"; "valueOf"; "__proto__";
    "toLocaleString" ].

Definition inherited (name : string) : bool :=
  existsb (String.eqb name) Object_prototype.

(** Own properties in creation order. *)
Definition object (V : Type) : Type := list (string * V).

Definition get {V} (o : object V) (k : string) : option V :=
  option_map snd (List.find (fun kv => String.eqb (fst kv) k) o).

Fixpoint put {V} (k : string) (v : V) (o : object V) : object V :=
  match o with
  | [] => [(k, v)]
  | (k', v') :: r => if String.eqb k' k then (k, v) :: r else (k', v') :: put k v r
  end.

(** [o[k] = v].  Assigning to [__proto__] runs the inherited setter and
    creates no own property. *)
Definition set {V} (k : string) (v : V) (o : object V) : object V :=
  if String.eqb k "__proto__" then o else put k v o.

(** [Object.keys] order: array indices ascending, then the other names in
    creation order. *)
Fixpoint insert_index {V} (n : N) (kv : string * V) (l : list (N * (string * V)))
  : list (N * (string * V)) :=
  match l with
  | [] => [(n, kv)]
  | (m, kv') :: r =>
      if (n <? m)%N then (n, kv) :: l else (m, kv') :: insert_index n kv r
  end.

Fixpoint index_entries {V} (o : object V) : list (N * (string * V)) :=
  match o with
  | [] => []
  | kv :: r =>
      match array_index (fst kv) with
      | Some n => insert_index n kv (index_entries r)
      | None => index_entries r
      end
  end.

Definition entries {V} (o : object V) : list (string * V) :=
  map snd (index_entries o) ++
  List.filter (fun kv => negb (is_array_index (fst kv))) o.

(** [Array.prototype.sort(compareFn)] is stable; with a consistent
    comparator its result is the one of a stable insertion sort.  An
    element moves behind another one only when [compareFn] is positive. *)
Fixpoint sort_insert {A} (compareFn : A -> A -> Q) (x : A) (l : list A) : list A :=
  match l with
  | [] => [x]
  | y :: r =>
      if Qlt_le_dec 0 (compareFn x y) then y :: sort_insert compareFn x r
      else x :: y :: r
  end.

Definition sort {A} (compareFn : A -> A -> Q) (l : list A) : list A :=
  foldr (sort_insert compareFn) [] l.

End Js.

(** ** components/RecurringPayments.jsx *)

Module RecurringPayments.

(** A transaction of the calendar payload.  [payment_status] is [None]
    when the field is missing, [undefined] or [null]. *)
Record Transaction := {
  tx_id : string;
  description : string;
  tx_amount : Q;
  tx_category : string;
  is_recurring : bool;
  payment_status : option string
}.

(** [transactions] is [None] when the day carries no such field. *)
Record CalendarDay := {
  day_date : string;
  transactions : option (list Transaction)
}.

(** The values of [paymentData]. *)
Record PaymentData := {
  pd_id : string;
  pd_name : string;
  pd_amount : Q;
  pd_date : string;
  pd_category : string;
  pd_status : string
}.

(** The elements of [recurringPayments]. *)
Record RecurringPayment := {
  id : string;
  name : string;
  amount : Q;
  date : string;
  category : string;
  status : string;
  frequency : string;
  count : nat;
  monthlyTotal : Q
}.

(** The own properties of [paymentCounts] hold a number or NaN. *)
Inductive counter := CNum (n : nat) | CNaN.

(** [!paymentCounts[name]].  A name that is not an own property is looked
    up in [Object.prototype], whose members are functions or objects and
    so are truthy; any other name reads [undefined]. *)
Definition unseen (paymentCounts : gmap string counter) (name : string) : bool :=
  match paymentCounts !! name with
  | Some (CNum n) => Nat.eqb n 0
  | Some CNaN => true
  | None => negb (Js.inherited name)
  end.

(** [paymentCounts[name] = v] *)
Definition set_count (name : string) (v : counter)
    (paymentCounts : gmap string counter) : gmap string counter :=
  if String.eqb name "__proto__" then paymentCounts else <[name := v]> paymentCounts.

(** [paymentCounts[name]++]: a number is incremented, anything else
    ([undefined], an inherited function, NaN) becomes NaN. *)
Definition increment (name : string) (paymentCounts : gmap string counter)
  : gmap string counter :=
  set_count name
    match paymentCounts !! name with
    | Some (CNum n) => CNum (S n)
    | _ => CNaN
    end paymentCounts.

(** [tx.payment_status || 'pendiente'] *)
Definition status_or_default (s : option string) : string :=
  match s with
  | Some (String c r) => String c r
  | _ => "pendiente"
  end.

Definition seed (day : CalendarDay) (tx : Transaction) : PaymentData :=
  {| pd_id := tx_id tx;
     pd_name := description tx;
     pd_amount := tx_amount tx;
     pd_date := day_date day;
     pd_category := tx_category tx;
     pd_status := status_or_default (payment_status tx) |}.

Definition scan_state : Type := gmap string counter * Js.object PaymentData.

(** The body of [day.transactions.forEach]. *)
Definition visit (day : CalendarDay) (st : scan_state) (tx : Transaction) : scan_state :=
  if is_recurring tx then
    let name := description tx in
    let '(paymentCounts, paymentData) := st in
    let '(paymentCounts, paymentData) :=
      if unseen paymentCounts name
      then (set_count name (CNum 0) paymentCounts, Js.set name (seed day tx) paymentData)
      else (paymentCounts, paymentData) in
    (increment name paymentCounts, paymentData)
  else st.

(** The body of [data.days.forEach]. *)
Definition visit_day (st : scan_state) (day : CalendarDay) : scan_state :=
  match transactions day with
  | Some txs => fold_left (visit day) txs st
  | None => st
  end.

Definition scan (days : list CalendarDay) : scan_state :=
  fold_left visit_day days (∅, []).

(** [paymentCounts[name]] for a name of [Object.keys(paymentData)]; such a
    name always holds a positive number (lemma [scan_recorded]). *)
Definition count_of (paymentCounts : gmap string counter) (name : string) : nat :=
  match paymentCounts !! name with
  | Some (CNum n) => n
  | _ => 0
  end.

Definition isWeekly (name : string) (count : nat) : bool :=
  Js.includes (Js.toLowerCase name) "semanal" || (4 <=? count)%nat.

(** The callback of [Object.keys(paymentData).map]. *)
Definition build (paymentCounts : gmap string counter) (kv : string * PaymentData)
  : RecurringPayment :=
  let '(name, pd) := kv in
  let count := count_of paymentCounts name in
  let weekly := isWeekly name count in
  {| id := pd_id pd;
     name := pd_name pd;
     amount := pd_amount pd;
     date := pd_date pd;
     category := pd_category pd;
     status := pd_status pd;
     frequency :=
       if weekly then "SEMANAL (" ++ Js.toString (Z.of_nat count) ++ "x)" else "MENSUAL";
     count := count;
     monthlyTotal :=
       if weekly then (pd_amount pd * inject_Z (Z.of_nat count))%Q else pd_amount pd |}.

Definition compareFn (a b : RecurringPayment) : Q :=
  (monthlyTotal b - monthlyTotal a)%Q.

(** [allRecurring] before and after [sort]. *)
Definition unsorted (days : list CalendarDay) : list RecurringPayment :=
  let '(paymentCounts, paymentData) := scan days in
  map (build paymentCounts) (Js.entries paymentData).

Definition allRecurring (days : list CalendarDay) : list RecurringPayment :=
  Js.sort compareFn (unsorted days).

(** The effect: the list is replaced only when [data?.days] is there. *)
Definition aggregate (days : option (list CalendarDay))
    (recurringPayments : list RecurringPayment) : list RecurringPayment :=
  match days with
  | Some ds => allRecurring ds
  | None => recurringPayments
  end.

(** *** [updateStatus]

    [{ ...p, status: newStatus }] *)
Definition with_status (newStatus : string) (p : RecurringPayment) : RecurringPayment :=
  {| id := id p; name := name p; amount := amount p; date := date p;
     category := category p; status := newStatus; frequency := frequency p;
     count := count p; monthlyTotal := monthlyTotal p |}.

Definition optimistic (paymentId newStatus : string)
    (prev : list RecurringPayment) : list RecurringPayment :=
  map (fun p => if String.eqb (id p) paymentId then with_status newStatus p else p) prev.

(** A call in flight holds the snapshot [previousPayments] of its closure,
    a copy of the list that the call found. *)
Record in_flight := { previousPayments : list RecurringPayment }.

(** Up to the [await]: the snapshot is taken and the optimistic update is
    applied. *)
Definition updateStatus_begin (paymentId newStatus : string)
    (recurringPayments : list RecurringPayment)
  : list RecurringPayment * in_flight :=
  let previousPayments := recurringPayments in
  (optimistic paymentId newStatus recurringPayments,
   {| previousPayments := previousPayments |}).

(** After the [await]: [ok] tells whether [updateTransactionStatus]
    resolved.  [recurringPayments] is the list at that moment. *)
Definition updateStatus_settle (ok : bool) (call : in_flight)
    (recurringPayments : list RecurringPayment) : list RecurringPayment :=
  if ok then recurringPayments else previousPayments call.

Definition updateStatus (paymentId newStatus : string) (ok : bool)
    (recurringPayments : list RecurringPayment) : list RecurringPayment :=
  let '(shown, call) := updateStatus_begin paymentId newStatus recurringPayments in
  updateStatus_settle ok call shown.

End RecurringPayments.

(** ** components/PendingPayments.jsx *)

Module PendingPayments.

(** An item of [GET due-dates]; a field is [None] when missing.
    [item_amount] is the number that [parseFloat(item.amount)] reads. *)
Record DueItem := {
  item_id : string;
  item_description : option string;
  item_amount : Q;
  due_date : string;
  item_category : option string;
  item_status : option string
}.

Record Payment := {
  id : string;
  name : string;
  amount : Q;
  dueDate : string;
  category : string;
  status : string
}.

Record state := {
  payments : list Payment;
  loading : bool;
  error : option string
}.

(** [x || fallback] on strings *)
Definition or_else (x : option string) (fallback : string) : string :=
  match x with
  | Some (String c r) => String c r
  | _ => fallback
  end.

Definition format (item : DueItem) : Payment :=
  {| id := item_id item;
     name := or_else (item_description item) "Sin nombre";
     amount := item_amount item;
     dueDate := due_date item;
     category := or_else (item_category item) "Otros";
     status := or_else (item_status item) "pendiente" |}.

(** [fetchPayments]: [response] is [None] when [getDueDates] rejects, and
    holds [response.data.data] otherwise ([None] when that is missing). *)
Definition fetchPayments (response : option (option (list DueItem))) (st : state) : state :=
  match response with
  | Some data =>
      {| payments := map format (default [] data); loading := false; error := error st |}
  | None =>
      {| payments := payments st; loading := false;
         error := Some "Error al cargar pagos" |}
  end.

Definition with_status (newStatus : string) (p : Payment) : Payment :=
  {| id := id p; name := name p; amount := amount p; dueDate := dueDate p;
     category := category p; status := newStatus |}.

Definition optimistic (paymentId newStatus : string) (prev : list Payment) : list Payment :=
  map (fun p => if String.eqb (id p) paymentId then with_status newStatus p else p) prev.

(** [updateStatus]: [ok] tells whether [updateDueDateStatus] resolved;
    [refetch] is the outcome of the [fetchPayments] of the [catch]. *)
Definition updateStatus (paymentId newStatus : string) (ok : bool)
    (refetch : option (option (list DueItem))) (st : state) : state :=
  let st1 := {| payments := optimistic paymentId newStatus (payments st);
                loading := loading st; error := error st |} in
  if ok then st1 else fetchPayments refetch st1.

End PendingPayments.

(** ** hooks/useCryptoPortfolio.js

  The figures are binary64 floats, evaluated as the browser does. *)

Set Warnings "-inexact-float".

Module CryptoPortfolio.

Local Open Scope float_scope.

Definition SYMBOL_TO_ID : Js.object string :=
  [ ("LINK", "chainlink"); ("XRP", "ripple"); ("PEPE", "pepe"); ("SUI", "sui");
    ("ONDO", "ondo-finance"); ("POPCAT", "popcat"); ("UNI", "uniswap");
    ("AERO", "aerodrome-finance"); ("ARB", "arbitrum") ]%string.

Record Holding := {
  symbol : string;
  amount : float;
  avgBuyPrice : float;
  realizedProfit : option float
}.

Definition CRYPTO_HOLDINGS : list Holding :=
  [ {| symbol := "LINK"; amount := 4.174; avgBuyPrice := 24.38; realizedProfit := None |};
    {| symbol := "XRP"; amount := 22.12; avgBuyPrice := 0.60; realizedProfit := Some 236 |};
    {| symbol := "PEPE"; amount := 6894366; avgBuyPrice := 0.00000939; realizedProfit := None |};
    {| symbol := "SUI"; amount := 21.90; avgBuyPrice := 3.50; realizedProfit := None |};
    {| symbol := "ONDO"; amount := 83.88; avgBuyPrice := 1.045; realizedProfit := None |};
    {| symbol := "POPCAT"; amount := 259.62; avgBuyPrice := 0.248; realizedProfit := None |};
    {| symbol := "UNI"; amount := 3.344; avgBuyPrice := 14.71; realizedProfit := None |};
    {| symbol := "AERO"; amount := 15.00; avgBuyPrice := 1.60; realizedProfit := None |};
    {| symbol := "ARB"; amount := 25.06; avgBuyPrice := 1.045; realizedProfit := None |} ].

(** A quote of the price feed; a field is [None] when missing. *)
Record PriceQuote := {
  usd : option float;
  usd_24h_change : option float
}.

Record Asset := {
  holding : Holding;
  price : float;
  priceChange : float;
  value : float;
  profit : float;
  profitPercent : float
}.

Record state := {
  prices : gmap string PriceQuote;
  loading : bool;
  error : option string;
  lastUpdated : option Z
}.

Definition initial : state :=
  {| prices := ∅; loading := true; error := None; lastUpdated := None |}.

(** The outcome of [await getCryptoPrices()]: rejected, or fulfilled with
    [response.data.data] ([None] when [response.data] or
    [response.data.data] is missing). *)
Inductive outcome :=
| Rejected
| Fulfilled (data : option (gmap string PriceQuote)).

Definition fetchPrices (now : Z) (res : outcome) (st : state) : state :=
  match res with
  | Fulfilled (Some data) =>
      {| prices := data; loading := false; error := None; lastUpdated := Some now |}
  | Fulfilled None =>
      {| prices := prices st; loading := false; error := error st;
         lastUpdated := lastUpdated st |}
  | Rejected =>
      {| prices := prices st; loading := false;
         error := Some "Error updating prices"%string;
         lastUpdated := lastUpdated st |}
  end.

(** [x || 0]: a missing field, NaN and zero are falsy. *)
Definition or_zero (x : option float) : float :=
  match x with
  | Some v => if is_nan v || is_zero v then 0 else v
  | None => 0
  end.

(** The callback of [CRYPTO_HOLDINGS.map].  A symbol outside
    [SYMBOL_TO_ID] (none of [CRYPTO_HOLDINGS]) reads [undefined], which
    indexes [prices] as the name "undefined".  The [logoUrl] field, a
    constant of the view, is left out. *)
Definition valuate (prices : gmap string PriceQuote) (holding : Holding) : Asset :=
  let id := default "undefined"%string (Js.get SYMBOL_TO_ID (symbol holding)) in
  let priceData := default {| usd := None; usd_24h_change := None |} (prices !! id) in
  let currentPrice := or_zero (usd priceData) in
  let priceChange := or_zero (usd_24h_change priceData) in
  let value := amount holding * currentPrice in
  let initialInvestment := amount holding * avgBuyPrice holding in
  let profit := (value - initialInvestment) + or_zero (realizedProfit holding) in
  let profitPercent :=
    if 0 <? initialInvestment then (profit / initialInvestment) * 100 else 0 in
  {| holding := holding; price := currentPrice; priceChange := priceChange;
     value := value; profit := profit; profitPercent := profitPercent |}.

Definition portfolioData (prices : gmap string PriceQuote) : list Asset :=
  map (valuate prices) CRYPTO_HOLDINGS.

Record Totals := {
  totalValue : float;
  totalProfit : float;
  totalProfitPercent : float
}.

Definition totals (portfolioData : list Asset) : Totals :=
  let totalValue := fold_left (fun acc curr => acc + value curr) portfolioData 0 in
  let totalInvestment :=
    fold_left (fun acc curr => acc + amount (holding curr) * avgBuyPrice (holding curr))
      portfolioData 0 in
  let totalProfit := fold_left (fun acc curr => acc + profit curr) portfolioData 0 in
  {| totalValue := totalValue; totalProfit := totalProfit;
     totalProfitPercent :=
       if 0 <? totalInvestment then (totalProfit / totalInvestment) * 100 else 0 |}.

End CryptoPortfolio.

(** ** pages/Dashboard.jsx *)

Module Dashboard.

(** *** [calculateSavings]

    The balances are real numbers and [Math.pow] is the real power, which
    it approximates for a positive base. *)
Record SavingsAccount := {
  name : string;
  principal : R;
  annualRate : R
}.

Definition SAVINGS_ACCOUNTS : list SavingsAccount :=
  [ {| name := "Cajita Turbo"; principal := 25000; annualRate := 13 / 100 |};
    {| name := "cajita x"; principal := 2771157 / 100; annualRate := 7 / 100 |} ]%R.

Inductive number := Num (r : R) | NaN.

(** [totalSavings] and the entry [savingsLastUpdate] of [localStorage]. *)
Record savings := {
  totalSavings : number;
  savingsLastUpdate : option string
}.

Definition Math_pow (x y : R) : R := Rpower x y.

(** [calculateSavings], at the time [now] (epoch milliseconds), over the
    account table [accounts].  [None] is the TypeError of reading
    [principal] off a missing entry. *)
Definition calculateSavings (accounts : list SavingsAccount) (now : Z) (st : savings)
  : option (number * savings) :=
  match accounts !! 0%nat, accounts !! 1%nat with
  | Some account0, Some account1 =>
      let total :=
        match savingsLastUpdate st with
        | Some (String c r as lastUpdate) =>
            match Js.parseInt lastUpdate with
            | Some last =>
                let daysPassed := (IZR (now - last) / (1000 * 60 * 60 * 24))%R in
                let principal1 :=
                  (principal account0 * Math_pow (1 + annualRate account0 / 365) daysPassed)%R in
                let principal2 :=
                  (principal account1 * Math_pow (1 + annualRate account1 / 365) daysPassed)%R in
                Num (principal1 + principal2)
            | None => NaN
            end
        | _ => Num (principal account0 + principal account1)
        end in
      Some (total, {| totalSavings := total;
                      savingsLastUpdate := Some (Js.toString now) |})
  | _, _ => None
  end.

(** *** [fetchAllData] *)
Inductive settled (A : Type) :=
| fulfilled (value : A)
| rejected.
Arguments fulfilled {A} value.
Arguments rejected {A}.

Definition is_rejected {A} (r : settled A) : bool :=
  match r with rejected => true | fulfilled _ => false end.

Section FetchAllData.

(** [payload] is what an object endpoint answers in [response.data],
    [item] an element of a list endpoint's [response.data.data]. *)
Variables payload item : Type.

Record state := {
  loading : bool;
  refreshing : bool;
  error : option string;
  summary : option payload;
  cashflow : list item;
  tagDistribution : list item;
  categoryDistribution : list item;
  calendar : option payload;
  savings_progress : option payload;
  transactions : option payload
}.

(** The seven results of [Promise.allSettled].  An object endpoint
    carries [value.data] ([None] when missing); a list endpoint carries
    [value.data?.data] ([None] when either level is missing). *)
Record results := {
  summaryRes : settled (option payload);
  cashflowRes : settled (option (list item));
  tagRes : settled (option (list item));
  calendarRes : settled (option payload);
  savingsRes : settled (option payload);
  transactionsRes : settled (option payload);
  categoryRes : settled (option (list item))
}.

Definition statuses (rs : results) : list bool :=
  [ is_rejected (summaryRes rs); is_rejected (cashflowRes rs);
    is_rejected (tagRes rs); is_rejected (calendarRes rs);
    is_rejected (savingsRes rs); is_rejected (transactionsRes rs);
    is_rejected (categoryRes rs) ].

(** [if (res.status === 'fulfilled') setSlice(res.value.data)] *)
Definition store (res : settled (option payload)) (prior : option payload)
  : option payload :=
  match res with fulfilled v => v | rejected => prior end.

(** [if (res.status === 'fulfilled') setSlice(res.value.data?.data || [])] *)
Definition store_list (res : settled (option (list item))) (prior : list item)
  : list item :=
  match res with fulfilled v => default [] v | rejected => prior end.

Definition fetchAllData (showLoading : bool) (rs : results) (st : state) : state :=
  let allFailed := forallb (fun r => r) (statuses rs) in
  {| loading := false;
     refreshing := false;
     error :=
       if allFailed
       then Some "Error al cargar los datos. Por favor intenta de nuevo."
       else None;
     summary := store (summaryRes rs) (summary st);
     cashflow := store_list (cashflowRes rs) (cashflow st);
     tagDistribution := store_list (tagRes rs) (tagDistribution st);
     categoryDistribution := store_list (categoryRes rs) (categoryDistribution st);
     calendar := store (calendarRes rs) (calendar st);
     savings_progress := store (savingsRes rs) (savings_progress st);
     transactions := store (transactionsRes rs) (transactions st) |}.

End FetchAllData.

End Dashboard.

(** ** components/RecurringPayments.jsx and components/PendingPayments.jsx:
       what the panels show beside the lists *)

Module PaymentPanels.

(** [x || y] on numbers: zero is falsy. *)
Definition or_number (x y : Q) : Q := if Qeq_bool x 0 then y else x.

(** [totalMonthly] of the recurring panel:
    [reduce((sum, p) => sum + (p.monthlyTotal || p.amount), 0)] *)
Definition totalMonthly (recurringPayments : list RecurringPayments.RecurringPayment) : Q :=
  fold_left
    (fun sum p =>
       (sum + or_number (RecurringPayments.monthlyTotal p) (RecurringPayments.amount p))%Q)
    recurringPayments 0%Q.

(** The footer of the pending panel: [reduce((sum, p) => sum + p.amount, 0)] *)
Definition pendingTotal (payments : list PendingPayments.Payment) : Q :=
  fold_left (fun sum p => (sum + PendingPayments.amount p)%Q) payments 0%Q.

End PaymentPanels.

(** ** InvestmentsPortfolio: the sorted table *)

Module InvestmentsPortfolio.

Local Open Scope float_scope.

(** The numeric fields of an asset that [sortConfig.key] can name. *)
Inductive field :=
  Amount | AvgBuyPrice | Price | PriceChange | Value | Profit | ProfitPercent.

Record sortConfig := {
  key : option field;
  direction : string
}.

(** The state [useState] starts from. *)
Definition initialSort : sortConfig :=
  {| key := Some Value; direction := "desc" |}.

(** [a[sortConfig.key] || 0] *)
Definition read (k : field) (a : CryptoPortfolio.Asset) : float :=
  CryptoPortfolio.or_zero (Some
    match k with
    | Amount => CryptoPortfolio.amount (CryptoPortfolio.holding a)
    | AvgBuyPrice => CryptoPortfolio.avgBuyPrice (CryptoPortfolio.holding a)
    | Price => CryptoPortfolio.price a
    | PriceChange => CryptoPortfolio.priceChange a
    | Value => CryptoPortfolio.value a
    | Profit => CryptoPortfolio.profit a
    | ProfitPercent => CryptoPortfolio.profitPercent a
    end).

(** The comparator of [sortedPortfolioData]. *)
Definition compareFn (cfg : sortConfig) (a b : CryptoPortfolio.Asset) : Q :=
  match key cfg with
  | None => 0%Q
  | Some k =>
      let aValue := read k a in
      let bValue := read k b in
      if aValue <? bValue then (if String.eqb (direction cfg) "asc" then (-1)%Q else 1%Q)
      else if bValue <? aValue then (if String.eqb (direction cfg) "asc" then 1%Q else (-1)%Q)
      else 0%Q
  end.

(** [[...portfolioData].sort(...)] *)
Definition sortedPortfolioData (cfg : sortConfig) (portfolioData : list CryptoPortfolio.Asset)
  : list CryptoPortfolio.Asset :=
  Js.sort (compareFn cfg) portfolioData.

End InvestmentsPortfolio.

(** ** DueCalendar *)

Module DueCalendar.

(** The state [currentMonth], [currentYear]. *)
Record shown := {
  currentMonth : Z;
  currentYear : Z
}.

(** [handlePrevMonth]: the new state and the arguments handed to
    [onMonthChange], which the source computes a second time. *)
Definition handlePrevMonth (st : shown) : shown * (Z * Z) :=
  let st' :=
    if (currentMonth st =? 1)%Z
    then {| currentMonth := 12; currentYear := currentYear st - 1 |}
    else {| currentMonth := currentMonth st - 1; currentYear := currentYear st |} in
  (st',
   (if (currentMonth st =? 1)%Z then 12%Z else (currentMonth st - 1)%Z,
    if (currentMonth st =? 1)%Z then (currentYear st - 1)%Z else currentYear st)).

Definition handleNextMonth (st : shown) : shown * (Z * Z) :=
  let st' :=
    if (currentMonth st =? 12)%Z
    then {| currentMonth := 1; currentYear := currentYear st + 1 |}
    else {| currentMonth := currentMonth st + 1; currentYear := currentYear st |} in
  (st',
   (if (currentMonth st =? 12)%Z then 1%Z else (currentMonth st + 1)%Z,
    if (currentMonth st =? 12)%Z then (currentYear st + 1)%Z else currentYear st)).

(** [s.padStart(2, '0')] *)
Definition padStart2 (s : string) : string :=
  match s with
  | EmptyString => "00"
  | String c EmptyString => String "0" s
  | _ => s
  end.

(** The key of a day of the grid:
    [`${currentYear}-${String(currentMonth).padStart(2, '0')}-${String(day).padStart(2, '0')}`] *)
Definition dateStr (year month day : Z) : string :=
  Js.toString year ++ "-" ++ padStart2 (Js.toString month) ++ "-" ++ padStart2 (Js.toString day).

(** A due date of the payload; [is_overdue] is false when missing. *)
Record DueDate := {
  due_description : string;
  due_status : option string;
  due_is_overdue : bool
}.

(** A day of the calendar payload, as this component reads it. *)
Record DayData := {
  date : string;
  due_dates : option (list DueDate);
  transactions : option (list RecurringPayments.Transaction);
  total_expenses : option Q;
  total_income : option Q
}.

Record Cell := {
  day : Z;
  cell_date : string;
  isToday : bool;
  dueDates : list DueDate;
  cell_transactions : list RecurringPayments.Transaction;
  totalExpenses : Q;
  totalIncome : Q
}.

(** [today] is [today.getFullYear()], [today.getMonth()], [today.getDate()];
    [days] is [data?.days]. *)
Definition cell (today : Z * Z * Z) (days : option (list DayData)) (st : shown) (d : Z) : Cell :=
  let '(todayYear, todayMonth, todayDate) := today in
  let key := dateStr (currentYear st) (currentMonth st) d in
  let dayData :=
    match days with
    | Some ds => List.find (fun x => String.eqb (date x) key) ds
    | None => None
    end in
  {| day := d;
     cell_date := key;
     isToday := (d =? todayDate)%Z && (currentMonth st =? todayMonth + 1)%Z
                && (currentYear st =? todayYear)%Z;
     dueDates := default [] (dayData ≫= due_dates);
     cell_transactions := default [] (dayData ≫= transactions);
     totalExpenses := default 0%Q (dayData ≫= total_expenses);
     totalIncome := default 0%Q (dayData ≫= total_income) |}.

(** [calendarDays]: [startDayOfWeek] is [firstDay.getDay()] and
    [daysInMonth] is [lastDay.getDate()]. *)
Definition calendarDays (startDayOfWeek daysInMonth : nat) (today : Z * Z * Z)
    (days : option (list DayData)) (st : shown) : list (option Cell) :=
  repeat None startDayOfWeek ++
  map (fun d => Some (cell today days st (Z.of_nat d))) (seq 1 daysInMonth).

(** *** The cell component [CalendarDay] *)

(** An element of [allItems]: a due date as it came, or a recurring
    transaction converted for display. *)
Record Item := {
  text : string;
  status : option string;
  is_overdue : bool
}.

Definition of_due (d : DueDate) : Item :=
  {| text := due_description d; status := due_status d; is_overdue := due_is_overdue d |}.

Definition of_transaction (tx : RecurringPayments.Transaction) : Item :=
  {| text := RecurringPayments.description tx;
     status := Some (RecurringPayments.status_or_default (RecurringPayments.payment_status tx));
     is_overdue :=
       match RecurringPayments.payment_status tx with
       | Some s => String.eqb s "vencido"
       | None => false
       end |}.

Definition allItems (c : Cell) : list Item :=
  map of_due (dueDates c) ++
  map of_transaction (List.filter RecurringPayments.is_recurring (cell_transactions c)).

Definition has_status (s : string) (i : Item) : bool :=
  match status i with
  | Some s' => String.eqb s' s
  | None => false
  end.

Definition hasOverdue (items : list Item) : bool :=
  existsb (fun i => is_overdue i || has_status "vencido" i) items.

Definition hasPending (items : list Item) : bool := existsb (has_status "pendiente") items.

Definition hasPaid (items : list Item) : bool := existsb (has_status "pagado") items.

(** The dots of the cell: red, amber, green. *)
Record Dots := {
  red : bool;
  amber : bool;
  green : bool
}.

Definition dots (items : list Item) : Dots :=
  let hasItems := (0 <? length items)%nat in
  {| red := hasItems && hasOverdue items;
     amber := hasItems && hasPending items;
     green := hasItems &&
              (hasPaid items && negb (hasOverdue items) && negb (hasPending items)) |}.

(** [allItems.slice(0, 2)] and the count of the [+N] label. *)
Definition listed (items : list Item) : list Item := firstn 2 items.

Definition more (items : list Item) : option nat :=
  if (2 <? length items)%nat then Some (length items - 2)%nat else None.

End DueCalendar.

(** ** hooks/useApi.js *)

Module UseApi.

Section Fetch.

(** [D] is what [response.data] holds. *)
Variable D : Type.

Record state := {
  data : option D;
  loading : bool;
  error : option string
}.

(** The rejection of [fetchFn]: [err.response?.data?.detail] and
    [err.message], [None] when missing. *)
Record failure := {
  detail : option string;
  message : option string
}.

(** [x || y] on strings *)
Definition or_string (x : option string) (y : string) : string :=
  match x with
  | Some (String c r) => String c r
  | _ => y
  end.

Definition errorMessage (err : failure) : string :=
  or_string (detail err) (or_string (message err) "An error occurred").

(** [fetch]: the state when the call is over, and what the caller gets:
    [response.data], or the rethrown failure. *)
Definition fetch (res : failure + D) (st : state) : state * (failure + D) :=
  match res with
  | inr d => ({| data := Some d; loading := false; error := None |}, inr d)
  | inl err =>
      ({| data := data st; loading := false; error := Some (errorMessage err) |}, inl err)
  end.

End Fetch.

End UseApi.

(** ** TransactionList *)

Module TransactionList.

(** [array.slice(0, end)] for an integer [end]. *)
Definition slice0 {A} (last : Z) (l : list A) : list A :=
  if (last <? 0)%Z
  then firstn (length l - Z.to_nat (- last)) l
  else firstn (Z.to_nat last) l.

(** [transactions?.data?.slice(0, limit) || []]; [rows] is
    [transactions?.data]. *)
Definition items {A} (rows : option (list A)) (limit : Z) : list A :=
  match rows with
  | Some l => slice0 limit l
  | None => []
  end.

Definition count {A} (rows : option (list A)) (limit : Z) : nat :=
  length (items rows limit).

End TransactionList.

(** ** components/SavingsProgress.jsx *)

Module SavingsProgress.

Inductive color := Red | Amber | Blue | Green.

(** [goal.progress_percent || 0] *)
Definition progress (progress_percent : option Q) : Q :=
  match progress_percent with
  | Some p => if Qeq_bool p 0 then 0%Q else p
  | None => 0%Q
  end.

(** The colour of the bar of [GoalItem]. *)
Definition progressStyle (completed : bool) (progress : Q) : color :=
  if completed then Green
  else if Qle_bool 80 progress then Green
  else if Qle_bool 50 progress then Blue
  else if Qle_bool 25 progress then Amber
  else Red.

(** [Math.min(100, progress)], the width of the bar in percent. *)
Definition width (progress : Q) : Q :=
  if Qle_bool 100 progress then 100%Q else progress.

End SavingsProgress.

(** * Vocabulary of the properties *)

Section NumberVocabulary.

Definition is_digit (c : ascii) : bool :=
  let n := N_of_ascii c in ((48 <=? n) && (n <=? 57))%N.

Definition all_digits (s : string) : bool :=
  forallb is_digit (list_ascii_of_string s).

(** A list in descending order of [key]. *)
Definition descending {A} (key : A -> Q) : list A -> Prop :=
  StronglySorted (fun a b => (key b <= key a)%Q).

(** The elements whose [key] is [v]. *)
Definition tied {A} (key : A -> Q) (v : Q) (a : A) : bool := Qeq_bool (key a) v.

(** The comparator [(a, b) => key(b) - key(a)]. *)
Definition by_key {A} (key : A -> Q) (a b : A) : Q := (key b - key a)%Q.

End NumberVocabulary.

Section AggregationVocabulary.

Import RecurringPayments.

(** The recurring transactions in the order of the scan, each with its day. *)
Definition occurrences (days : list CalendarDay) : list (CalendarDay * Transaction) :=
  flat_map (fun day =>
    match transactions day with
    | Some txs => map (pair day) (List.filter is_recurring txs)
    | None => []
    end) days.

Definition described (d : string) (o : CalendarDay * Transaction) : bool :=
  String.eqb (description (snd o)) d.

Definition occurrence_count (d : string) (days : list CalendarDay) : nat :=
  length (List.filter (described d) (occurrences days)).

Definition first_occurrence (d : string) (days : list CalendarDay)
  : option (CalendarDay * Transaction) :=
  List.find (described d) (occurrences days).

Definition visit_occurrence (st : scan_state) (o : CalendarDay * Transaction) : scan_state :=
  visit (fst o) st (snd o).

(** After the occurrences [l], [paymentCounts] holds the number of
    occurrences of [d] and [paymentData] the seed of its first one. *)
Definition counted (d : string) (l : list (CalendarDay * Transaction))
    (paymentCounts : gmap string counter) : Prop :=
  paymentCounts !! d =
  match length (List.filter (described d) l) with
  | O => None
  | S n => Some (CNum (S n))
  end.

Definition seeded (d : string) (l : list (CalendarDay * Transaction))
    (paymentData : Js.object PaymentData) : Prop :=
  List.filter (fun kv => String.eqb (fst kv) d) paymentData =
  match List.find (described d) l with
  | None => []
  | Some o => [(d, seed (fst o) (snd o))]
  end.

(** Every value of [paymentData] was seeded from a recurring occurrence of
    its name, and its name holds a positive count. *)
Definition recorded (l : list (CalendarDay * Transaction)) (st : scan_state) : Prop :=
  st.1 !! "__proto__" = None /\
  Forall (fun kv =>
    (exists n, st.1 !! kv.1 = Some (CNum (S n))) /\
    exists o, o ∈ l /\ description (snd o) = kv.1 /\ kv.2 = seed (fst o) (snd o)) st.2.

(** The element [e] carries the fields of the occurrence [tx] of [day] and
    the count [n]. *)
Definition entry_from (e : RecurringPayment) (day : CalendarDay) (tx : Transaction)
    (n : nat) : Prop :=
  id e = tx_id tx /\ name e = description tx /\ amount e = tx_amount tx /\
  date e = day_date day /\ category e = tx_category tx /\
  status e = status_or_default (payment_status tx) /\ count e = n.

(** The descriptions of the recurring transactions in the order in which
    the payload first shows them. *)
Definition met (seen : list string) (o : CalendarDay * Transaction) : list string :=
  let d := description (snd o) in
  if existsb (String.eqb d) seen then seen else (seen ++ [d])%list.

Definition first_met_in (l : list (CalendarDay * Transaction)) : list string :=
  fold_left met l [].

Definition first_met (days : list CalendarDay) : list string :=
  first_met_in (occurrences days).

(** The element that the aggregation is meant to hold for a description:
    the identity of the occurrence [tx] of [day], the count [n], and the
    label and monthly total that follow from them. *)
Definition entry_of (day : CalendarDay) (tx : Transaction) (n : nat) : RecurringPayment :=
  let weekly := Js.includes (Js.toLowerCase (description tx)) "semanal" || (4 <=? n)%nat in
  {| id := tx_id tx;
     name := description tx;
     amount := tx_amount tx;
     date := day_date day;
     category := tx_category tx;
     status := status_or_default (payment_status tx);
     frequency :=
       if weekly then "SEMANAL (" ++ Js.toString (Z.of_nat n) ++ "x)" else "MENSUAL";
     count := n;
     monthlyTotal :=
       if weekly then (tx_amount tx * inject_Z (Z.of_nat n))%Q else tx_amount tx |}.

(** The element of the description [d]: from its first occurrence in the
    payload, counting all its occurrences. *)
Definition expected (days : list CalendarDay) (d : string) : option RecurringPayment :=
  match first_occurrence d days with
  | Some (day, tx) => Some (entry_of day tx (occurrence_count d days))
  | None => None
  end.

(** The elements in encounter order: one per description, in the order in
    which the payload first shows the descriptions. *)
Definition encounter_order (days : list CalendarDay) : list RecurringPayment :=
  omap (expected days) (first_met days).

Definition ties_keep_encounter_order (days : list CalendarDay) : Prop :=
  forall v : Q,
    List.filter (tied monthlyTotal v) (allRecurring days) =
    List.filter (tied monthlyTotal v) (encounter_order days).

(** No recurring description is an array index or a member of
    [Object.prototype]. *)
Definition plain_names (days : list CalendarDay) : Prop :=
  Forall (fun o => Js.is_array_index (description (snd o)) = false /\
                   Js.inherited (description (snd o)) = false) (occurrences days).

Definition vocabulary : list string := ["pendiente"; "pagado"; "vencido"].

Definition falsy (s : option string) : Prop := s = None \/ s = Some "".

Definition typed_status (s : option string) : Prop :=
  falsy s \/ exists v, s = Some v /\ v ∈ vocabulary.

(** Sample payloads. *)
Definition transaction (i d : string) (a : Q) (st : option string) : Transaction :=
  {| tx_id := i; description := d; tx_amount := a; tx_category := "Servicios";
     is_recurring := true; payment_status := st |}.

Definition on (d : string) (txs : list Transaction) : CalendarDay :=
  {| day_date := d; transactions := Some txs |}.

Definition may_days : list CalendarDay :=
  [ on "2024-05-01" [transaction "a1" "Gym" 100 (Some "pagado");
                     transaction "b1" "Renta" 100 None];
    on "2024-05-08" [transaction "a2" "Gym" 100 None;
                     transaction "c1" "Despensa Semanal" 30 (Some "")];
    {| day_date := "2024-05-12"; transactions := None |};
    on "2024-05-15" [transaction "a3" "Gym" 100 None;
                     transaction "d1" "Netflix" 100 (Some "vencido");
                     transaction "d2" "Netflix" 100 None;
                     {| tx_id := "x9"; description := "Cena"; tx_amount := 80;
                        tx_category := "Comida"; is_recurring := false;
                        payment_status := None |}];
    on "2024-05-22" [transaction "a4" "Gym" 100 None;
                     transaction "d3" "Netflix" 100 None] ].

Definition luz_days : list CalendarDay :=
  [ on "2024-05-02" [transaction "t1" "Luz" 100 (Some "pagado")];
    on "2024-05-09" [transaction "t2" "5" 100 None] ].

Definition constructor_days : list CalendarDay :=
  [ on "2024-05-03" [transaction "t7" "constructor" 250 (Some "pendiente")] ].

Definition constructor_twice : list CalendarDay :=
  [ on "2024-05-03" [transaction "t7" "constructor" 250 None];
    on "2024-05-10" [transaction "t8" "constructor" 250 (Some "pagado")] ].

Definition constructor_luz : list CalendarDay :=
  [ on "2024-05-03" [transaction "t7" "constructor" 100 None];
    on "2024-05-04" [transaction "t1" "Luz" 100 None];
    on "2024-05-10" [transaction "t8" "constructor" 100 None] ].

Definition constructor_four : list CalendarDay :=
  [ on "2024-05-03" [transaction "w1" "constructor" 100 None];
    on "2024-05-10" [transaction "w2" "constructor" 100 None];
    on "2024-05-17" [transaction "w3" "constructor" 100 None];
    on "2024-05-24" [transaction "w4" "constructor" 100 None] ].

End AggregationVocabulary.

Section StatusVocabulary.

Import PendingPayments.

Definition rent : Payment :=
  {| id := "d1"; name := "Renta"; amount := 4500; dueDate := "2024-05-05";
     category := "Hogar"; status := "pendiente" |}.

Definition gas : Payment :=
  {| id := "d2"; name := "Gas"; amount := 380; dueDate := "2024-05-20";
     category := "Hogar"; status := "pendiente" |}.

Definition gas_item : DueItem :=
  {| item_id := "d2"; item_description := Some "Gas"; item_amount := 380;
     due_date := "2024-05-20"; item_category := Some "Hogar";
     item_status := Some "pendiente" |}.

Definition rent_due : state :=
  {| payments := [rent]; loading := false; error := None |}.

(** The rent was marked paid a moment ago and is still listed. *)
Definition rent_paid_gas_due : state :=
  {| payments := [with_status "pagado" rent; gas]; loading := false; error := None |}.

(** After the failed update the list is the one before the update. *)
Definition restored (paymentId newStatus : string)
    (refetch : option (option (list DueItem))) (st : state) : Prop :=
  payments (updateStatus paymentId newStatus false refetch st) = payments st.

End StatusVocabulary.

Section PriceVocabulary.

Import CryptoPortfolio.
Local Open Scope float_scope.

Definition LINK : Holding :=
  {| symbol := "LINK"; amount := 4.174; avgBuyPrice := 24.38; realizedProfit := None |}.

Definition chainlink_20 : gmap string PriceQuote :=
  {[ "chainlink"%string := {| usd := Some 20; usd_24h_change := Some 5 |} ]}.

(** [x] is within [tol] of [y] *)
Definition near (x y tol : float) : bool := abs (x - y) <? tol.

(** The polls of the interval, each with its time and its outcome. *)
Definition polling (polls : list (Z * outcome)) (st : state) : state :=
  fold_left (fun st p => fetchPrices (fst p) (snd p) st) polls st.


End PriceVocabulary.

Section FetchVocabulary.

Import Dashboard.
Context {payload item : Type}.

Definition all_failed (rs : results payload item) : Prop :=
  summaryRes _ _ rs = rejected /\ cashflowRes _ _ rs = rejected /\
  tagRes _ _ rs = rejected /\ calendarRes _ _ rs = rejected /\
  savingsRes _ _ rs = rejected /\ transactionsRes _ _ rs = rejected /\
  categoryRes _ _ rs = rejected.

(** A slice after the fetch: the fetched value when its request was
    fulfilled, the prior value otherwise. *)
Definition slice {A B} (res : settled A) (extract : A -> B) (prior after : B) : Prop :=
  match res with
  | fulfilled v => after = extract v
  | rejected => after = prior
  end.

End FetchVocabulary.

Section SavingsVocabulary.

Import Dashboard.
Local Open Scope R_scope.

(** The formula of the projection: every account of the table compounds
    daily over [days] days. *)
Definition projected (accounts : list SavingsAccount) (days : R) : R :=
  foldr (fun a acc => principal a * Rpower (1 + annualRate a / 365) days + acc) 0 accounts.

Definition total_principal (accounts : list SavingsAccount) : R :=
  foldr (fun a acc => principal a + acc) 0 accounts.

Definition no_checkpoint : savings :=
  {| totalSavings := Num (5271157 / 100); savingsLastUpdate := None |}.

Definition checkpoint (last : Z) : savings :=
  {| totalSavings := Num (5271157 / 100); savingsLastUpdate := Some (Js.toString last) |}.

(** The bases of [Math.pow] are positive. *)
Definition sound_rate (a : SavingsAccount) : Prop := -365 < annualRate a.

(** Two successive computations, at the times [now] and [later]. *)
Definition successive (accounts : list SavingsAccount) (now later : Z) (st : savings)
  : option (number * number) :=
  match calculateSavings accounts now st with
  | Some (first, st1) =>
      match calculateSavings accounts later st1 with
      | Some (second, _) => Some (first, second)
      | None => None
      end
  | None => None
  end.

(** Two computations with no time between them return the same total. *)
Definition same_total (accounts : list SavingsAccount) (now : Z) (st : savings) : Prop :=
  exists total, successive accounts now now st = Some (total, total).

End SavingsVocabulary.

Section InvariantVocabulary.

Import RecurringPayments.

(** After the occurrences [l], no name counts more than it occurred. *)
Definition not_overcounted (l : list (CalendarDay * Transaction))
    (paymentCounts : gmap string counter) : Prop :=
  forall k n, paymentCounts !! k = Some (CNum n) ->
              (n <= length (List.filter (described k) l))%nat.

(** The distinct descriptions of the recurring transactions. *)
Definition descriptions (days : list CalendarDay) : list string :=
  remove_dups (map (fun o => description (snd o)) (occurrences days)).

(** No transaction of the payload is recurring. *)
Definition none_recurring (days : list CalendarDay) : Prop :=
  Forall (fun day =>
    forall txs, transactions day = Some txs ->
                Forall (fun tx => is_recurring tx = false) txs) days.

(** What [updateStatus] leaves alone in an element. *)
Definition unchanged_fields (p : RecurringPayment) :=
  (id p, name p, amount p, date p, category p, frequency p, count p, monthlyTotal p).

(** The sum of the monthly totals of the elements. *)
Definition monthly_sum (l : list RecurringPayment) : Q :=
  foldr (fun p s => (monthlyTotal p + s)%Q) 0%Q l.

Definition plain (i d : string) : Transaction :=
  {| tx_id := i; description := d; tx_amount := 80; tx_category := "Comida";
     is_recurring := false; payment_status := None |}.

Definition plain_days : list CalendarDay :=
  [ on "2024-05-01" [plain "p1" "Tacos"]; {| day_date := "2024-05-02"; transactions := None |};
    on "2024-05-03" [] ].

End InvariantVocabulary.

Section PendingVocabulary.

Import PendingPayments.

Definition pending_fields (p : Payment) := (id p, name p, amount p, dueDate p, category p).

Definition bare_item : DueItem :=
  {| item_id := "r9"; item_description := Some ""; item_amount := 120; due_date := "2024-06-01";
     item_category := None; item_status := None |}.

End PendingVocabulary.

Section CalendarVocabulary.

Import DueCalendar.

(** The months since year zero of the month shown. *)
Definition month_index (st : shown) : Z := 12 * currentYear st + currentMonth st.

Definition valid_month (st : shown) : Prop := (1 <= currentMonth st <= 12)%Z.

(** The status of the item is one of the three of the vocabulary. *)
Definition typed_item (i : Item) : Prop := exists v, status i = Some v /\ v ∈ vocabulary.

Definition december : shown := {| currentMonth := 12; currentYear := 2024 |}.

Definition december_days : list DayData :=
  [ {| date := "2024-12-05"; due_dates := None;
       transactions := Some [transaction "t1" "Gym" 100 None];
       total_expenses := Some 100%Q; total_income := None |};
    {| date := "2024-12-24";
       due_dates := Some [ {| due_description := "Renta"; due_status := Some "pagado";
                              due_is_overdue := false |} ];
       transactions := None; total_expenses := None; total_income := None |} ].

End CalendarVocabulary.

Section TableVocabulary.

Import CryptoPortfolio.

Definition two_quotes : gmap string PriceQuote :=
  <[ "ripple" := {| usd := Some 5%float; usd_24h_change := None |} ]> chainlink_20.

Definition symbols (rows : list Asset) : list string := map (fun a => symbol (holding a)) rows.

End TableVocabulary.

Section ProgressVocabulary.

Import SavingsProgress.

(** The colours from the least progress to the most. *)
Definition rank (c : color) : nat :=
  match c with Red => 0 | Amber => 1 | Blue => 2 | Green => 3 end.

End ProgressVocabulary.

Section CheckpointVocabulary.

Import Dashboard.

(** A state whose checkpoint holds the string [s]. *)
Definition written (s : string) : savings :=
  {| totalSavings := NaN; savingsLastUpdate := Some s |}.

End CheckpointVocabulary.

(** * Built-ins *)

Section JsNumbers.

Lemma small_cases (P : N -> Prop) :
  P 0%N -> P 1%N -> P 2%N -> P 3%N -> P 4%N -> P 5%N -> P 6%N -> P 7%N ->
  P 8%N -> P 9%N -> forall d, (d < 10)%N -> P d.
Proof.
  intros H0 H1 H2 H3 H4 H5 H6 H7 H8 H9 d Hd.
  assert (E : (d = 0 \/ d = 1 \/ d = 2 \/ d = 3 \/ d = 4 \/ d = 5 \/ d = 6 \/
               d = 7 \/ d = 8 \/ d = 9)%N) by lia.
  repeat (destruct E as [-> | E]; [assumption | ]). now subst.
Qed.

Lemma digit_value_char d : (d < 10)%N -> Js.digit_value (Js.digit_char d) = Some d.
Proof. revert d. apply small_cases; reflexivity. Qed.

Lemma is_digit_char d : (d < 10)%N -> is_digit (Js.digit_char d) = true.
Proof. revert d. apply small_cases; reflexivity. Qed.

Lemma digits_of_S f n acc :
  Js.digits_of (S f) n acc =
  if (n / 10 =? 0)%N then String (Js.digit_char (n mod 10)) acc
  else Js.digits_of f (n / 10) (String (Js.digit_char (n mod 10)) acc).
Proof. reflexivity. Qed.

Lemma parse_last_digit n acc a :
  (n / 10 = 0)%N ->
  Js.parse_radix 10 (String (Js.digit_char (n mod 10)) acc) a =
  Js.parse_radix 10 acc (Some (default 0 a * 10 ^ 1 + n))%N.
Proof.
  intros E. cbn [Js.parse_radix].
  rewrite digit_value_char by (apply N.mod_lt; lia).
  assert ((n mod 10 <? 10)%N = true) as -> by (apply N.ltb_lt, N.mod_lt; lia).
  rewrite N.mod_small by (apply N.div_small_iff in E; lia). now rewrite N.pow_1_r.
Qed.

(** Reading back the digits of [n]: [fuel] binary digits are enough. *)
Lemma parse_digits_of f n acc a :
  (n < 2 ^ N.of_nat (S f))%N ->
  exists k, Js.parse_radix 10 (Js.digits_of (S f) n acc) a =
            Js.parse_radix 10 acc (Some (default 0 a * 10 ^ k + n))%N.
Proof.
  revert n acc. induction f as [|f IH]; intros n acc Hn.
  - exists 1%N. cbn [Js.digits_of].
    assert (n / 10 = 0)%N as E.
    { apply N.div_small. change (2 ^ N.of_nat 1)%N with 2%N in Hn. lia. }
    rewrite E. cbn [N.eqb]. now apply parse_last_digit.
  - rewrite digits_of_S. destruct (N.eqb_spec (n / 10) 0) as [E|E].
    + exists 1%N. now apply parse_last_digit.
    + destruct (IH (n / 10)%N (String (Js.digit_char (n mod 10)) acc)) as [k Hk].
      { rewrite Nat2N.inj_succ, N.pow_succ_r' in Hn.
        apply N.Div0.div_lt_upper_bound. lia. }
      exists (N.succ k). rewrite Hk. cbn [Js.parse_radix].
      rewrite digit_value_char by (apply N.mod_lt; lia).
      assert ((n mod 10 <? 10)%N = true) as -> by (apply N.ltb_lt, N.mod_lt; lia).
      f_equal. f_equal. cbn [default]. rewrite N.pow_succ_r'.
      pose proof (N.div_mod n 10 ltac:(lia)) as D.
      unfold Datatypes.id. rewrite D at 3. ring.
Qed.

Lemma log2_fuel n : (n < 2 ^ N.of_nat (S (N.to_nat (N.log2 n))))%N.
Proof.
  rewrite Nat2N.inj_succ, N2Nat.id.
  destruct n as [|p]; [reflexivity|]. apply N.log2_spec. lia.
Qed.

Lemma parse_N_toString n : Js.parse_radix 10 (Js.N_toString n) None = Some n.
Proof.
  unfold Js.N_toString.
  destruct (parse_digits_of (N.to_nat (N.log2 n)) n "" None (log2_fuel n)) as [k ->].
  cbn. reflexivity.
Qed.

Lemma digits_of_all_digits f n acc :
  all_digits acc = true -> all_digits (Js.digits_of f n acc) = true.
Proof.
  revert n acc. induction f as [|f IH]; intros n acc Hacc; [exact Hacc|].
  cbn [Js.digits_of].
  assert (all_digits (String (Js.digit_char (n mod 10)) acc) = true) as H.
  { unfold all_digits. cbn. rewrite is_digit_char by (apply N.mod_lt; lia). exact Hacc. }
  destruct (n / 10 =? 0)%N; [exact H | now apply IH].
Qed.

Lemma digits_of_nonempty f n acc : Js.digits_of (S f) n acc <> "".
Proof.
  revert n acc. induction f as [|f IH]; intros n acc; cbn [Js.digits_of].
  - destruct (n / 10 =? 0)%N; discriminate.
  - destruct (n / 10 =? 0)%N; [discriminate | apply IH].
Qed.

Lemma N_toString_shape n :
  exists c r, Js.N_toString n = String c r /\ is_digit c = true /\ all_digits r = true.
Proof.
  pose proof (digits_of_all_digits (S (N.to_nat (N.log2 n))) n "" eq_refl) as H.
  pose proof (digits_of_nonempty (N.to_nat (N.log2 n)) n "") as H'.
  fold (Js.N_toString n) in H, H'.
  destruct (Js.N_toString n) as [|c r]; [congruence|].
  exists c, r. unfold all_digits in H. cbn in H. apply andb_true_iff in H. tauto.
Qed.

Lemma digit_not c : is_digit c = true ->
  Ascii.eqb c "x" = false /\ Ascii.eqb c "X" = false /\ Ascii.eqb c "-" = false /\
  Ascii.eqb c "+" = false /\ Js.is_white c = false.
Proof.
  unfold is_digit, Js.is_white. intros H.
  repeat split; try (apply Ascii.eqb_neq; intros ->; discriminate H).
  destruct (N_of_ascii c) as [|p]; [discriminate|].
  apply andb_true_iff in H as [H1 H2]. apply N.leb_le in H1, H2.
  apply orb_false_iff. split; [apply N.eqb_neq; lia|].
  apply andb_false_iff. right. apply N.leb_gt. lia.
Qed.

(** A string that starts with an ASCII character other than white space
    has nothing to trim. *)
Lemma trimStart_ascii c r :
  (N_of_ascii c < 128)%N -> Js.is_white c = false -> Js.trimStart (String c r) = String c r.
Proof.
  intros Hc Hw. cbn [Js.trimStart]. rewrite Hw.
  assert (forall c1, Js.is_white2 c c1 = false) as H2.
  { intros c1. unfold Js.is_white2. apply andb_false_iff. left. apply N.eqb_neq. lia. }
  assert (forall c1 c2, Js.is_white3 c c1 c2 = false) as H3.
  { intros c1 c2. unfold Js.is_white3. cbv zeta.
    assert (forall k, (128 <= k)%N -> (N_of_ascii c =? k)%N = false) as E
      by (intros k Hk; apply N.eqb_neq; lia).
    rewrite !E by lia. reflexivity. }
  destruct r as [|c1 [|c2 r2]]; rewrite ?H2, ?H3; reflexivity.
Qed.

Lemma trimStart_digit c r : is_digit c = true -> Js.trimStart (String c r) = String c r.
Proof.
  intros Hc. apply trimStart_ascii; [|now apply digit_not].
  unfold is_digit in Hc. cbv zeta in Hc.
  apply andb_true_iff in Hc as [_ Hc]. apply N.leb_le in Hc. lia.
Qed.

Lemma parse_unsigned_N_toString n : Js.parse_unsigned (Js.N_toString n) = Some n.
Proof.
  pose proof (parse_N_toString n) as P.
  destruct (N_toString_shape n) as (c & r & E & Hc & Hr). rewrite E in *.
  unfold Js.parse_unsigned. destruct r as [|c1 r]; [exact P|].
  unfold all_digits in Hr. cbn in Hr. apply andb_true_iff in Hr as [Hc1 _].
  destruct (digit_not c1 Hc1) as (-> & -> & _). rewrite andb_false_r. exact P.
Qed.

Lemma parseInt_N_toString n : Js.parseInt (Js.N_toString n) = Some (Z.of_N n).
Proof.
  pose proof (parse_unsigned_N_toString n) as P.
  destruct (N_toString_shape n) as (c & r & E & Hc & Hr). rewrite E in *.
  destruct (digit_not c Hc) as (_ & _ & Hm & Hp & _).
  unfold Js.parseInt. rewrite (trimStart_digit c r Hc), Hm, Hp, P. reflexivity.
Qed.

(** The checkpoint written by [now.toString()] is read back by [parseInt]. *)
Lemma parseInt_toString z : Js.parseInt (Js.toString z) = Some z.
Proof.
  destruct z as [|p|p]; [reflexivity| |].
  - apply (parseInt_N_toString (Npos p)).
  - unfold Js.toString, Js.parseInt.
    rewrite trimStart_ascii by (try reflexivity; cbn; lia).
    change (Ascii.eqb "-" "-") with true. cbv iota.
    rewrite parse_unsigned_N_toString. reflexivity.
Qed.

(** The written checkpoint is a non-empty string, hence truthy. *)
Lemma toString_truthy z : exists c r, Js.toString z = String c r.
Proof.
  destruct z as [|p|p]; [now eexists _, _| |now eexists _, _].
  destruct (N_toString_shape (Npos p)) as (c & r & E & _). now exists c, r.
Qed.

Example toString_ex : Js.toString 1730000000000 = "1730000000000".
Proof. reflexivity. Qed.

Example parseInt_ex :
  Js.parseInt " -12px" = Some (-12)%Z /\ Js.parseInt "0x1F" = Some 31%Z /\
  Js.parseInt "abc" = None /\ Js.parseInt "" = None.
Proof. repeat split; reflexivity. Qed.

(** A no-break space or a byte order mark before the digits is skipped
    like a blank. *)
Example parseInt_unicode_space :
  Js.parseInt (String (ascii_of_N 194) (String (ascii_of_N 160) "5")) = Some 5%Z /\
  Js.parseInt (String (ascii_of_N 239) (String (ascii_of_N 187)
                 (String (ascii_of_N 191) " 42"))) = Some 42%Z /\
  Js.parseInt (String (ascii_of_N 194) (String (ascii_of_N 161) "5")) = None.
Proof. repeat split; reflexivity. Qed.

Example toLowerCase_ex :
  Js.includes (Js.toLowerCase "Despensa SEMANAL") "semanal" = true /\
  Js.includes (Js.toLowerCase "Semana Santa") "semanal" = false.
Proof. split; reflexivity. Qed.

End JsNumbers.

Section JsSort.

Context {A : Type} (key : A -> Q).

Lemma sort_insert_Permutation x l : Js.sort_insert (by_key key) x l ≡ₚ x :: l.
Proof.
  induction l as [|y r IH]; [reflexivity|]. cbn.
  destruct (Qlt_le_dec 0 (by_key key x y)); [|reflexivity].
  rewrite IH. apply perm_swap.
Qed.

Lemma sort_Permutation l : Js.sort (by_key key) l ≡ₚ l.
Proof.
  induction l as [|x l IH]; [reflexivity|].
  cbn. rewrite sort_insert_Permutation. now rewrite IH.
Qed.

Lemma sort_insert_descending x l :
  descending key l -> descending key (Js.sort_insert (by_key key) x l).
Proof.
  unfold descending.
  induction l as [|y r IH]; intros Hl; cbn.
  - repeat constructor.
  - apply StronglySorted_inv in Hl as [Hr Hy].
    destruct (Qlt_le_dec 0 (by_key key x y)) as [Hlt|Hle].
    + unfold by_key in Hlt. constructor; [now apply IH|].
      rewrite sort_insert_Permutation. constructor; [|exact Hy].
      apply Qlt_le_weak. lra.
    + unfold by_key in Hle. assert (key y <= key x)%Q as Hyx by lra.
      constructor; [now constructor|]. constructor; [exact Hyx|].
      eapply Forall_impl; [exact Hy|]. intros z Hz. cbn in Hz. lra.
Qed.

Lemma sort_descending l : descending key (Js.sort (by_key key) l).
Proof.
  induction l as [|x l IH]; [constructor|]. now apply sort_insert_descending.
Qed.

Lemma sort_insert_tied v x l :
  List.filter (tied key v) (Js.sort_insert (by_key key) x l) =
  List.filter (tied key v) (x :: l).
Proof.
  induction l as [|y r IH]; [reflexivity|].
  cbn [Js.sort_insert].
  destruct (Qlt_le_dec 0 (by_key key x y)) as [Hlt|Hle]; [|reflexivity].
  unfold by_key in Hlt. cbn [List.filter] in *. rewrite IH.
  destruct (tied key v x) eqn:Ex, (tied key v y) eqn:Ey; try reflexivity.
  unfold tied in Ex, Ey. apply Qeq_bool_iff in Ex, Ey. lra.
Qed.

(** The sort is stable: elements of equal key keep their relative order. *)
Lemma sort_stable v l :
  List.filter (tied key v) (Js.sort (by_key key) l) = List.filter (tied key v) l.
Proof.
  induction l as [|x l IH]; [reflexivity|].
  cbn [Js.sort foldr]. fold (Js.sort (by_key key) l). rewrite sort_insert_tied.
  cbn [List.filter]. now rewrite IH.
Qed.

End JsSort.

Section JsObject.

Context {V : Type}.
Implicit Types (o : Js.object V) (kv : string * V).

Lemma insert_index_Permutation n kv (l : list (N * (string * V))) :
  Js.insert_index n kv l ≡ₚ (n, kv) :: l.
Proof.
  induction l as [|[m kv'] r IH]; [reflexivity|]. cbn.
  destruct (n <? m)%N; [reflexivity|]. rewrite IH. apply perm_swap.
Qed.

Lemma index_entries_Permutation o :
  map snd (Js.index_entries o) ≡ₚ List.filter (fun kv => Js.is_array_index (fst kv)) o.
Proof.
  induction o as [|kv r IH]; [reflexivity|].
  cbn. unfold Js.is_array_index. destruct (Js.array_index (fst kv)); [|exact IH].
  rewrite insert_index_Permutation. cbn. now rewrite IH.
Qed.

Lemma filter_split (f : string * V -> bool) o :
  List.filter f o ++ List.filter (fun kv => negb (f kv)) o ≡ₚ o.
Proof.
  induction o as [|kv r IH]; [reflexivity|]. cbn.
  destruct (f kv); cbn.
  - now rewrite IH.
  - rewrite <- Permutation_middle. now rewrite IH.
Qed.

(** [Object.keys] enumerates every own property once. *)
Lemma entries_Permutation o : Js.entries o ≡ₚ o.
Proof.
  unfold Js.entries. rewrite index_entries_Permutation.
  apply (filter_split (fun kv => Js.is_array_index (fst kv))).
Qed.

(** Without array indices among the names, the order is creation order. *)
Lemma entries_creation_order o :
  Forall (fun kv => Js.is_array_index (fst kv) = false) o -> Js.entries o = o.
Proof.
  intros H. unfold Js.entries.
  assert (Js.index_entries o = []) as ->.
  { induction H as [|kv r Hkv Hr IH]; [reflexivity|]. cbn.
    unfold Js.is_array_index in Hkv.
    destruct (Js.array_index (fst kv)); [discriminate|exact IH]. }
  cbn. induction H as [|kv r Hkv Hr IH]; [reflexivity|].
  cbn. rewrite Hkv. cbn. now f_equal.
Qed.

Lemma put_other (k k' : string) (v : V) o :
  k' <> k ->
  List.filter (fun kv => String.eqb (fst kv) k') (Js.put k v o) =
  List.filter (fun kv => String.eqb (fst kv) k') o.
Proof.
  intros Hne. induction o as [|[k0 v0] r IH]; cbn.
  - destruct (String.eqb_spec k k'); congruence.
  - destruct (String.eqb_spec k0 k) as [->|Hk]; cbn.
    + destruct (String.eqb_spec k k'); congruence.
    + now rewrite IH.
Qed.

Lemma put_fresh (k : string) (v : V) o :
  List.filter (fun kv => String.eqb (fst kv) k) o = [] ->
  List.filter (fun kv => String.eqb (fst kv) k) (Js.put k v o) = [(k, v)].
Proof.
  induction o as [|[k0 v0] r IH]; cbn.
  - now rewrite String.eqb_refl.
  - destruct (String.eqb_spec k0 k) as [->|Hk]; [discriminate|].
    intros H. cbn. destruct (String.eqb_spec k0 k); [congruence|]. now apply IH.
Qed.

Lemma put_elem (k : string) (v : V) o kv :
  kv ∈ Js.put k v o -> kv = (k, v) \/ kv ∈ o.
Proof.
  induction o as [|[k0 v0] r IH]; cbn.
  - intros ->%list_elem_of_singleton. now left.
  - destruct (String.eqb k0 k).
    + intros [->|H]%elem_of_cons; [now left|]. right. now right.
    + intros [->|H]%elem_of_cons; [right; left|].
      destruct (IH H) as [->|H']; [now left|]. right. now right.
Qed.

Example entries_ex :
  map fst (Js.entries [("b", 1); ("10", 2); ("a", 3); ("9", 4); ("01", 5)]) =
  ["9"; "10"; "b"; "a"; "01"].
Proof. reflexivity. Qed.

End JsObject.

(** * The calendar aggregation *)

Section Aggregation.

Import RecurringPayments.

Lemma visit_day_occurrences day txs st :
  fold_left (visit day) txs st =
  fold_left visit_occurrence (map (pair day) (List.filter is_recurring txs)) st.
Proof.
  revert st. induction txs as [|tx txs IH]; intros st; [reflexivity|].
  cbn [fold_left List.filter]. rewrite IH.
  destruct (is_recurring tx) eqn:E; [reflexivity|].
  unfold visit. now rewrite E.
Qed.

Lemma fold_occurrences days st :
  fold_left visit_day days st = fold_left visit_occurrence (occurrences days) st.
Proof.
  revert st. induction days as [|day days IH]; intros st; [reflexivity|].
  cbn [fold_left occurrences flat_map]. rewrite fold_left_app. fold (occurrences days).
  rewrite IH. f_equal. unfold visit_day.
  destruct (transactions day); [apply visit_day_occurrences|reflexivity].
Qed.

(** The two nested [forEach] visit the recurring occurrences in order. *)
Lemma scan_occurrences days :
  scan days = fold_left visit_occurrence (occurrences days) (∅, []).
Proof. apply fold_occurrences. Qed.

Lemma occurrences_recurring days :
  Forall (fun o => is_recurring (snd o) = true) (occurrences days).
Proof.
  apply List.Forall_forall. intros [day tx] H. unfold occurrences in H.
  apply in_flat_map in H as (day' & _ & H).
  destruct (transactions day'); [|contradiction].
  apply in_map_iff in H as (tx' & [= <- <-] & H). now apply filter_In in H.
Qed.

Lemma find_snoc {X} (f : X -> bool) l x :
  List.find f (l ++ [x]) =
  match List.find f l with Some y => Some y | None => if f x then Some x else None end.
Proof. induction l as [|y l IH]; cbn; [reflexivity|]. now destruct (f y). Qed.

Lemma find_none_filter {X} (f : X -> bool) l :
  length (List.filter f l) = 0%nat -> List.find f l = None.
Proof. induction l as [|y l IH]; cbn; [reflexivity|]. now destruct (f y). Qed.

Lemma find_some_filter {X} (f : X -> bool) l n :
  length (List.filter f l) = S n -> exists y, List.find f l = Some y.
Proof.
  induction l as [|y l IH]; cbn; [discriminate|]. destruct (f y); eauto.
Qed.

Lemma inherited_proto d : Js.inherited d = false -> String.eqb d "__proto__" = false.
Proof.
  intros H. destruct (String.eqb_spec d "__proto__") as [->|]; [discriminate H|reflexivity].
Qed.

(** An occurrence of another description leaves the name [d] alone. *)
Lemma visit_other d o st :
  description (snd o) <> d ->
  (visit_occurrence st o).1 !! d = st.1 !! d /\
  List.filter (fun kv => String.eqb (fst kv) d) (visit_occurrence st o).2 =
  List.filter (fun kv => String.eqb (fst kv) d) st.2.
Proof.
  intros Hne. destruct o as [day tx], st as [c p]. cbn in Hne.
  unfold visit_occurrence, visit. cbn [fst snd].
  destruct (is_recurring tx); [|easy].
  assert (forall v (m : gmap string counter),
            set_count (description tx) v m !! d = m !! d) as Hset.
  { intros v m. unfold set_count. destruct (String.eqb _ "__proto__"); [reflexivity|].
    now apply lookup_insert_ne. }
  destruct (unseen c (description tx)); cbn [fst snd]; unfold increment; rewrite !Hset.
  - split; [reflexivity|]. unfold Js.set.
    destruct (String.eqb _ "__proto__"); [reflexivity|]. apply put_other. congruence.
  - easy.
Qed.

(** One more occurrence: the first one of [d] seeds it, every one counts. *)
Lemma visit_step d l o st :
  Js.inherited d = false ->
  is_recurring (snd o) = true ->
  counted d l st.1 -> seeded d l st.2 ->
  counted d (l ++ [o]) (visit_occurrence st o).1 /\
  seeded d (l ++ [o]) (visit_occurrence st o).2.
Proof.
  intros Hd Hrec Hc Hs. unfold counted, seeded in *.
  rewrite List.filter_app, length_app, find_snoc. cbn [List.filter].
  destruct (String.eqb_spec (description (snd o)) d) as [E|E].
  - assert (described d o = true) as ->
      by (unfold described; rewrite E; apply String.eqb_refl).
    cbn [length].
    destruct o as [day tx], st as [c p]. cbn [fst snd] in *.
    unfold visit_occurrence, visit. cbn [fst snd]. rewrite Hrec, E.
    pose proof (inherited_proto d Hd) as Hp.
    destruct (length (List.filter (described d) l)) as [|n] eqn:Hn.
    + rewrite (find_none_filter _ _ Hn) in Hs |- *.
      unfold unseen. rewrite Hc, Hd. cbn [negb fst snd].
      unfold increment, set_count, Js.set. rewrite Hp.
      rewrite lookup_insert_eq, lookup_insert_eq. split; [reflexivity|].
      now apply put_fresh.
    + destruct (find_some_filter _ _ _ Hn) as [y Hy]. rewrite Hy in Hs |- *.
      unfold unseen. rewrite Hc. cbn [Nat.eqb fst snd].
      unfold increment, set_count. rewrite Hp, Hc, lookup_insert_eq.
      split; [|exact Hs]. now rewrite Nat.add_1_r.
  - assert (described d o = false) as ->.
    { unfold described.
      destruct (String.eqb_spec (description (snd o)) d); [contradiction|reflexivity]. }
    cbn [length]. rewrite Nat.add_0_r.
    destruct (visit_other d o st E) as [-> ->]. split; [exact Hc|].
    rewrite Hs. now destruct (List.find (described d) l).
Qed.

Lemma scan_plain_name d l :
  Js.inherited d = false ->
  Forall (fun o => is_recurring (snd o) = true) l ->
  let st := fold_left visit_occurrence l (∅, []) in
  counted d l st.1 /\ seeded d l st.2.
Proof.
  intros Hd. induction l as [|o l IH] using rev_ind; intros Hl.
  - split; reflexivity.
  - apply Forall_app in Hl as [Hl Ho]. apply Forall_inv in Ho.
    cbv zeta. rewrite fold_left_app. cbn [fold_left].
    destruct (IH Hl) as [Hc Hs]. now apply visit_step.
Qed.

Lemma recorded_step l o st :
  is_recurring (snd o) = true ->
  recorded l st -> recorded (l ++ [o]) (visit_occurrence st o).
Proof.
  intros Hrec [Hproto Hall]. destruct o as [day tx], st as [c p]. cbn [fst snd] in *.
  unfold visit_occurrence, visit. cbn [fst snd]. rewrite Hrec.
  set (d := description tx).
  assert (forall v (m : gmap string counter),
            m !! "__proto__" = None -> set_count d v m !! "__proto__" = None) as Hkeep.
  { intros v m Hm. unfold set_count. destruct (String.eqb_spec d "__proto__"); [exact Hm|].
    now rewrite lookup_insert_ne. }
  assert (Forall (fun kv =>
            (exists n, c !! kv.1 = Some (CNum (S n))) /\
            exists o, o ∈ (l ++ [(day, tx)])%list /\ description (snd o) = kv.1 /\
                      kv.2 = seed (fst o) (snd o)) p) as Hall'.
  { eapply Forall_impl; [exact Hall|]. intros kv [Hn (o & Ho & Hk)].
    split; [exact Hn|]. exists o. split; [|exact Hk]. apply elem_of_app. now left. }
  assert (forall k : string, (exists n, c !! k = Some (CNum (S n))) ->
            exists n, increment d c !! k = Some (CNum (S n))) as Hincr.
  { intros k [n Hn]. unfold increment, set_count.
    destruct (String.eqb_spec d "__proto__") as [Ep|Ep]; [now exists n|].
    destruct (String.eqb_spec d k) as [Ek|Ek].
    - rewrite Ek, Hn, lookup_insert_eq. now exists (S n).
    - rewrite lookup_insert_ne by exact Ek. now exists n. }
  destruct (unseen c d) eqn:Hu; unfold recorded; cbn [fst snd].
  - destruct (String.eqb_spec d "__proto__") as [Ep|Ep].
    { unfold unseen in Hu. rewrite Ep, Hproto in Hu. discriminate Hu. }
    split; [unfold increment; now apply Hkeep, Hkeep|].
    apply Forall_forall. intros kv Hkv. unfold Js.set in Hkv.
    apply String.eqb_neq in Ep. rewrite Ep in Hkv. apply String.eqb_neq in Ep.
    apply put_elem in Hkv as [->|Hkv]; cbn [fst snd].
    + split.
      * exists 0%nat. unfold increment, set_count. apply String.eqb_neq in Ep.
        rewrite Ep. now rewrite lookup_insert_eq, lookup_insert_eq.
      * exists (day, tx). split; [|easy]. apply elem_of_app. right. now left.
    + rewrite Forall_forall in Hall'. destruct (Hall' kv Hkv) as [[n Hn] Ho].
      split; [|exact Ho].
      unfold increment, set_count. apply String.eqb_neq in Ep. rewrite Ep.
      destruct (String.eqb_spec d kv.1) as [Ek|Ek].
      * rewrite lookup_insert_eq, Ek, lookup_insert_eq. now exists 0%nat.
      * rewrite lookup_insert_ne by exact Ek. rewrite lookup_insert_ne by exact Ek.
        now exists n.
  - split; [unfold increment; now apply Hkeep|].
    eapply Forall_impl; [exact Hall'|]. intros kv [Hn Ho]. split; [now apply Hincr|exact Ho].
Qed.

Lemma scan_recorded l :
  Forall (fun o => is_recurring (snd o) = true) l ->
  recorded l (fold_left visit_occurrence l (∅, [])).
Proof.
  induction l as [|o l IH] using rev_ind; intros Hl.
  - split; [apply lookup_empty|constructor].
  - apply Forall_app in Hl as [Hl Ho]. apply Forall_inv in Ho.
    rewrite fold_left_app. cbn [fold_left]. now apply recorded_step, IH.
Qed.

Lemma scan_names days :
  Forall (fun kv => exists o, o ∈ occurrences days /\ description (snd o) = kv.1)
    (scan days).2.
Proof.
  pose proof (scan_recorded (occurrences days) (occurrences_recurring days)) as [_ Hall].
  rewrite <- scan_occurrences in Hall.
  eapply Forall_impl; [exact Hall|]. intros kv [_ (o & Ho & Hk & _)]. eauto.
Qed.

Lemma filter_Permutation_bool {X} (f : X -> bool) (l l' : list X) :
  l ≡ₚ l' -> List.filter f l ≡ₚ List.filter f l'.
Proof.
  induction 1 as [|x l l' _ IH|x y l|l l' l'' _ IH1 _ IH2]; cbn.
  - reflexivity.
  - destruct (f x); [now constructor|exact IH].
  - destruct (f x), (f y); try reflexivity. apply perm_swap.
  - now rewrite IH1.
Qed.

Lemma filter_map_bool {X Y} (f : Y -> bool) (g : X -> Y) (l : list X) :
  List.filter f (map g l) = map g (List.filter (fun x => f (g x)) l).
Proof.
  induction l as [|x l IH]; cbn; [reflexivity|]. rewrite IH. now destruct (f (g x)).
Qed.

Lemma filter_ext_Forall {X} (f g : X -> bool) (l : list X) :
  Forall (fun x => f x = g x) l -> List.filter f l = List.filter g l.
Proof.
  induction 1 as [|x l Hx _ IH]; cbn; [reflexivity|]. rewrite Hx, IH. reflexivity.
Qed.

Lemma allRecurring_Permutation days :
  allRecurring days ≡ₚ map (build (scan days).1) (scan days).2.
Proof.
  unfold allRecurring, unsorted. destruct (scan days) as [c p]. cbn [fst snd].
  etransitivity; [apply (sort_Permutation monthlyTotal)|].
  apply Permutation_map, entries_Permutation.
Qed.

(** Every element of the list was built from a value of [paymentData]
    that a recurring occurrence of its name seeded. *)
Lemma allRecurring_elem days e :
  e ∈ allRecurring days ->
  exists day tx n,
    (day, tx) ∈ occurrences days /\
    e = build (<[description tx := CNum (S n)]> ∅) (description tx, seed day tx).
Proof.
  intros He. rewrite allRecurring_Permutation in He.
  apply list_elem_of_fmap in He as ([k pd] & -> & Hkv).
  pose proof (scan_recorded (occurrences days) (occurrences_recurring days)) as [_ Hall].
  rewrite <- scan_occurrences in Hall. rewrite Forall_forall in Hall.
  destruct (Hall _ Hkv) as [[n Hn] ([day tx] & Ho & Hk & Hpd)]. cbn [fst snd] in *.
  exists day, tx, n. split; [exact Ho|]. subst k pd.
  unfold build, count_of. now rewrite Hn, lookup_insert_eq.
Qed.

End Aggregation.

Section AggregationClaims.

Import RecurringPayments.

(** The effect replaces the list when the payload has days and leaves it
    otherwise. *)
Lemma aggregate_effect (days : option (list CalendarDay)) (shown : list RecurringPayment) :
  aggregate days shown = from_option allRecurring shown days.
Proof. now destruct days. Qed.

Example may_days_aggregated :
  map (fun e => (name e, id e, count e, frequency e, monthlyTotal e)) (allRecurring may_days) =
  [ ("Gym", "a1", 4%nat, "SEMANAL (4x)", 400%Q);
    ("Renta", "b1", 1%nat, "MENSUAL", 100%Q);
    ("Netflix", "d1", 3%nat, "MENSUAL", 100%Q);
    ("Despensa Semanal", "c1", 1%nat, "SEMANAL (1x)", 30%Q) ].
Proof. vm_compute. reflexivity. Qed.

(** For a description that is no member of [Object.prototype], the list
    holds exactly one element when the description occurs among the
    recurring transactions and none otherwise; the element carries the id,
    amount, date, category and status of the first occurrence, and its
    count is the number of occurrences over all the days. *)
Theorem one_entry_per_description (days : list CalendarDay) (d : string) :
  Js.inherited d = false ->
  match first_occurrence d days with
  | None => List.filter (fun e => String.eqb (name e) d) (allRecurring days) = []
  | Some (day, tx) =>
      exists e, List.filter (fun e => String.eqb (name e) d) (allRecurring days) = [e] /\
                entry_from e day tx (occurrence_count d days)
  end.
Proof.
  intros Hd.
  pose proof (scan_plain_name d (occurrences days) Hd (occurrences_recurring days)) as [Hc Hs].
  pose proof (scan_recorded (occurrences days) (occurrences_recurring days)) as [_ Hall].
  cbv zeta in Hc, Hs. rewrite <- scan_occurrences in Hc, Hs, Hall.
  pose proof (filter_Permutation_bool (fun e => String.eqb (name e) d) _ _
                (allRecurring_Permutation days)) as HP.
  rewrite filter_map_bool in HP.
  rewrite (filter_ext_Forall _ (fun kv => String.eqb (fst kv) d)) in HP.
  2:{ eapply Forall_impl; [exact Hall|]. intros [k pd] [_ (o & _ & Hk & Hpd)].
      cbn [fst snd] in *. subst. reflexivity. }
  unfold seeded in Hs. rewrite Hs in HP. unfold first_occurrence, occurrence_count.
  destruct (List.find (described d) (occurrences days)) as [[day tx]|] eqn:Hf.
  - cbn [map fst snd] in HP. apply Permutation_singleton_r in HP.
    eexists. split; [exact HP|].
    apply find_some in Hf as [_ Hdesc]. unfold described in Hdesc. cbn in Hdesc.
    apply String.eqb_eq in Hdesc.
    unfold entry_from, build, count_of, counted in *. cbn.
    destruct (length (List.filter (described d) (occurrences days))); rewrite Hc; easy.
  - cbn [map] in HP. now apply Permutation_nil_r in HP.
Qed.

Lemma one_entry_per_description_witness :
  exists e, List.filter (fun e => String.eqb (name e) "Netflix") (allRecurring may_days) = [e] /\
            id e = "d1" /\ status e = "vencido" /\ date e = "2024-05-15" /\ count e = 3%nat.
Proof.
  destruct (one_entry_per_description may_days "Netflix" eq_refl)
    as (e & He & Hid & _ & _ & Hdate & _ & Hst & Hn).
  exists e. repeat split; assumption.
Defined.

(** C4: the claim wants one element per distinct recurring description.  A
    month whose only recurring transaction is described "constructor" has
    one occurrence of it and aggregates to the empty list:
    [paymentCounts["constructor"]] reads the inherited [Object] function,
    so the first sighting is not taken for one. *)
Theorem inherited_description_dropped :
  occurrence_count "constructor" constructor_days = 1%nat /\
  allRecurring constructor_days = [].
Proof. split; vm_compute; reflexivity. Qed.

(** With a second occurrence the element appears, seeded from that second
    occurrence and counting one. *)
Example inherited_description_late :
  map (fun e => (id e, count e, status e)) (allRecurring constructor_twice) =
  [("t8", 1%nat, "pagado")].
Proof. vm_compute. reflexivity. Qed.

(** The label and the monthly total of an element follow from its own
    name, amount and count. *)
Lemma frequency_of_count (days : list CalendarDay) (e : RecurringPayment) :
  e ∈ allRecurring days ->
  let weekly :=
    Js.includes (Js.toLowerCase (name e)) "semanal" = true \/ (4 <= count e)%nat in
  let times := inject_Z (Z.of_nat (count e)) in
  (frequency e = "SEMANAL (" ++ Js.toString (Z.of_nat (count e)) ++ "x)" <-> weekly) /\
  (frequency e = "MENSUAL" <-> ~ weekly) /\
  (weekly -> monthlyTotal e = (amount e * times)%Q) /\
  (~ weekly -> monthlyTotal e = amount e).
Proof.
  intros He. destruct (allRecurring_elem days e He) as (day & tx & n & _ & ->).
  unfold build, count_of. rewrite lookup_insert_eq.
  cbn -[Js.includes Js.toString Z.of_nat Nat.leb].
  set (c := S n). unfold isWeekly.
  assert (Js.includes (Js.toLowerCase (description tx)) "semanal" || (4 <=? c)%nat = true
          <-> Js.includes (Js.toLowerCase (description tx)) "semanal" = true \/ (4 <= c)%nat)
    as W.
  { rewrite orb_true_iff, Nat.leb_le. reflexivity. }
  destruct (Js.includes (Js.toLowerCase (description tx)) "semanal" || (4 <=? c)%nat).
  - assert (Js.includes (Js.toLowerCase (description tx)) "semanal" = true \/ (4 <= c)%nat)
      as Hw by now apply W.
    repeat split; try easy; intros H; discriminate H.
  - assert (~ (Js.includes (Js.toLowerCase (description tx)) "semanal" = true \/
               (4 <= c)%nat)) as Hw.
    { intros H. apply W in H. discriminate H. }
    repeat split; try easy; intros H; discriminate H.
Qed.

(** For a description that is no member of [Object.prototype] the
    classification goes by the occurrences: its element is weekly exactly
    when the lower-cased description contains "semanal" or the description
    occurs at least four times, and its monthlyTotal is the amount of the
    first occurrence times the number of occurrences when weekly, and that
    amount otherwise. *)
Lemma frequency_by_occurrences (days : list CalendarDay) (d : string)
    (day : CalendarDay) (tx : Transaction) :
  Js.inherited d = false ->
  first_occurrence d days = Some (day, tx) ->
  let c := occurrence_count d days in
  let weekly := Js.includes (Js.toLowerCase d) "semanal" = true \/ (4 <= c)%nat in
  exists e,
    List.filter (fun e => String.eqb (name e) d) (allRecurring days) = [e] /\
    amount e = tx_amount tx /\ count e = c /\
    (frequency e = "SEMANAL (" ++ Js.toString (Z.of_nat c) ++ "x)" <-> weekly) /\
    (frequency e = "MENSUAL" <-> ~ weekly) /\
    (weekly -> monthlyTotal e = (tx_amount tx * inject_Z (Z.of_nat c))%Q) /\
    (~ weekly -> monthlyTotal e = tx_amount tx).
Proof.
  intros Hd Hf. cbv zeta.
  pose proof (one_entry_per_description days d Hd) as H. rewrite Hf in H.
  destruct H as (e & He & _ & Hname & Hamt & _ & _ & _ & Hcount).
  exists e. split; [exact He|].
  assert (In e (List.filter (fun e => String.eqb (name e) d) (allRecurring days))) as Hin
    by (rewrite He; now left).
  apply filter_In in Hin as [Hin Hd']. apply String.eqb_eq in Hd'.
  apply list_elem_of_In in Hin.
  pose proof (frequency_of_count days e Hin) as F. cbv zeta in F.
  rewrite Hd', Hamt, Hcount in F. split; [exact Hamt|]. split; [exact Hcount|]. exact F.
Qed.

Lemma frequency_by_occurrences_witness :
  exists e,
    List.filter (fun e => String.eqb (name e) "Gym") (allRecurring may_days) = [e] /\
    count e = 4%nat /\ frequency e = "SEMANAL (4x)" /\ monthlyTotal e = (100 * inject_Z 4)%Q.
Proof.
  assert (exists day tx, first_occurrence "Gym" may_days = Some (day, tx) /\
                         tx_amount tx = 100%Q) as (day & tx & Hf & Ha)
    by (eexists _, _; split; reflexivity).
  destruct (frequency_by_occurrences may_days "Gym" day tx eq_refl Hf)
    as (e & He & _ & Hc & Hw & _ & Ht & _).
  assert ((4 <= occurrence_count "Gym" may_days)%nat) as H4 by (vm_compute; lia).
  exists e. split; [exact He|]. split; [exact Hc|]. split.
  - apply Hw. now right.
  - rewrite (Ht (or_intror H4)), Ha. reflexivity.
Defined.

(** C5: the claim classifies by the number of occurrences.  In a month
    where "constructor" recurs four times the first sighting is not
    counted ([paymentCounts["constructor"]] reads the inherited [Object]
    function), so the element counts three, is labelled monthly and totals
    the amount once, where the claim wants it weekly with four times the
    amount. *)
Theorem inherited_description_undercounted :
  occurrence_count "constructor" constructor_four = 4%nat /\
  Js.includes (Js.toLowerCase "constructor") "semanal" = false /\
  map (fun e => (name e, amount e, count e, frequency e, monthlyTotal e))
    (allRecurring constructor_four) =
    [("constructor", 100%Q, 3%nat, "MENSUAL", 100%Q)].
Proof. repeat split; vm_compute; reflexivity. Qed.

(** Three occurrences without "semanal" stay monthly; an amount of 100
    gives 400 over four weekly occurrences and 100 over one monthly one. *)
Example frequency_examples :
  map (fun e => (count e, frequency e, monthlyTotal e))
    (List.filter (fun e => String.eqb (name e) "Netflix") (allRecurring may_days)) =
    [(3%nat, "MENSUAL", 100%Q)] /\
  map (fun e => (amount e, count e, monthlyTotal e))
    (List.filter (fun e => String.eqb (name e) "Gym") (allRecurring may_days)) =
    [(100%Q, 4%nat, 400%Q)] /\
  map (fun e => (amount e, count e, monthlyTotal e))
    (List.filter (fun e => String.eqb (name e) "Renta") (allRecurring may_days)) =
    [(100%Q, 1%nat, 100%Q)].
Proof. repeat split; vm_compute; reflexivity. Qed.

End AggregationClaims.

Section AggregationOrder.

Import RecurringPayments.

Example luz_days_order :
  map name (encounter_order luz_days) = ["Luz"; "5"] /\
  map name (allRecurring luz_days) = ["5"; "Luz"] /\
  map monthlyTotal (allRecurring luz_days) = [100%Q; 100%Q].
Proof. repeat split; vm_compute; reflexivity. Qed.

(** C9 as stated fails: "Luz" is met before "5" and both total 100, yet
    "5" comes first, because [Object.keys] lists array indices before the
    other names. *)
Lemma ties_reordered : ~ ties_keep_encounter_order luz_days.
Proof. intros H. specialize (H 100%Q). vm_compute in H. discriminate H. Qed.

Lemma first_met_snoc l o : first_met_in (l ++ [o]) = met (first_met_in l) o.
Proof. unfold first_met_in. now rewrite fold_left_app. Qed.

Lemma first_met_elem l d :
  d ∈ first_met_in l <-> exists o, o ∈ l /\ description (snd o) = d.
Proof.
  induction l as [|o l IH] using rev_ind.
  - split; [intros H; now apply elem_of_nil in H|intros (o & H & _); now apply elem_of_nil in H].
  - rewrite first_met_snoc. unfold met. cbv zeta.
    destruct (existsb (String.eqb (description (snd o))) (first_met_in l)) eqn:E.
    + rewrite IH. split.
      * intros (o' & Ho' & Hd). exists o'. split; [apply elem_of_app; now left|exact Hd].
      * intros (o' & Ho' & Hd). apply elem_of_app in Ho' as [Ho'|Ho'].
        -- now exists o'.
        -- apply list_elem_of_singleton in Ho'. subst o'. apply IH.
           apply existsb_exists in E as (d' & Hin & Heq). apply String.eqb_eq in Heq.
           subst d'. rewrite <- Hd. now apply list_elem_of_In.
    + rewrite elem_of_app, IH, list_elem_of_singleton. split.
      * intros [(o' & Ho' & Hd) | ->].
        -- exists o'. split; [apply elem_of_app; now left|exact Hd].
        -- exists o. split; [apply elem_of_app; right; now left|reflexivity].
      * intros (o' & Ho' & Hd). apply elem_of_app in Ho' as [Ho'|Ho'].
        -- left. now exists o'.
        -- apply list_elem_of_singleton in Ho'. subst o'. now right.
Qed.

Lemma put_keys_fresh {V} (k : string) (v : V) (o : Js.object V) :
  k ∉ map fst o -> Js.put k v o = (o ++ [(k, v)])%list.
Proof.
  induction o as [|[k0 v0] r IH]; intros H; [reflexivity|]. cbn in *.
  apply not_elem_of_cons in H as [Hne Hr].
  destruct (String.eqb_spec k0 k) as [E|E]; [congruence|]. now rewrite IH.
Qed.

Lemma occurs_filter d (l : list (CalendarDay * Transaction)) :
  (exists o, o ∈ l /\ description (snd o) = d) <->
  length (List.filter (described d) l) <> 0%nat.
Proof.
  split.
  - intros (o & Ho & Hd) H. apply length_zero_iff_nil in H.
    assert (In o (List.filter (described d) l)) as C.
    { apply filter_In. split; [now apply list_elem_of_In|].
      unfold described. rewrite Hd. apply String.eqb_refl. }
    rewrite H in C. contradiction.
  - intros H. destruct (List.filter (described d) l) as [|o r] eqn:E; [contradiction|].
    assert (In o (List.filter (described d) l)) as C by (rewrite E; now left).
    apply filter_In in C as [Hin Hd]. exists o. split; [now apply list_elem_of_In|].
    unfold described in Hd. now apply String.eqb_eq in Hd.
Qed.

(** With descriptions outside [Object.prototype], [paymentData] gets its
    names in the order in which the payload first shows them. *)
Lemma scan_keys_first_met l :
  Forall (fun o => is_recurring (snd o) = true) l ->
  Forall (fun o => Js.inherited (description (snd o)) = false) l ->
  map fst (fold_left visit_occurrence l (∅, [])).2 = first_met_in l.
Proof.
  induction l as [|o l IH] using rev_ind; intros Hrec Hplain; [reflexivity|].
  apply Forall_app in Hrec as [Hrec Ho], Hplain as [Hplain Hd].
  apply Forall_inv in Ho, Hd. specialize (IH Hrec Hplain).
  rewrite fold_left_app, first_met_snoc. cbn [fold_left].
  destruct (scan_plain_name _ l Hd Hrec) as [Hc _]. cbv zeta in Hc.
  set (st := fold_left visit_occurrence l (∅, [])) in *.
  destruct o as [day tx], st as [c p]. cbn [fst snd] in *.
  unfold visit_occurrence, visit, met. cbn [fst snd]. rewrite Ho. cbv zeta.
  set (d := description tx) in *. unfold counted in Hc. unfold unseen.
  destruct (length (List.filter (described d) l)) as [|n] eqn:Hn.
  - rewrite Hc, Hd. cbn [negb snd].
    assert (d ∉ first_met_in l) as Hfresh.
    { intros H. apply first_met_elem, occurs_filter in H. contradiction. }
    assert (existsb (String.eqb d) (first_met_in l) = false) as ->.
    { destruct (existsb (String.eqb d) (first_met_in l)) eqn:E; [|reflexivity].
      exfalso. apply Hfresh. apply existsb_exists in E as (d' & Hin & Heq).
      apply String.eqb_eq in Heq. subst d'. now apply list_elem_of_In. }
    unfold Js.set. rewrite (inherited_proto d Hd).
    rewrite put_keys_fresh by now rewrite IH.
    rewrite map_app. cbn. now rewrite IH.
  - rewrite Hc. cbn [Nat.eqb snd].
    assert (existsb (String.eqb d) (first_met_in l) = true) as ->; [|exact IH].
    assert (d ∈ first_met_in l) as H.
    { apply first_met_elem, occurs_filter. rewrite Hn. discriminate. }
    apply existsb_exists. exists d. split; [now apply list_elem_of_In|apply String.eqb_refl].
Qed.

Lemma omap_map_Forall {X Y Z} (f : Y -> option Z) (g : X -> Y) (h : X -> Z) (l : list X) :
  Forall (fun x => f (g x) = Some (h x)) l -> omap f (map g l) = map h l.
Proof. induction 1 as [|x l Hx _ IH]; cbn; [reflexivity|]. now rewrite Hx, IH. Qed.

(** With plain names, the list before [sort] is the one described from
    the payload. *)
Lemma unsorted_encounter_order days : plain_names days -> unsorted days = encounter_order days.
Proof.
  intros Hplain. unfold plain_names in Hplain.
  assert (Forall (fun o => Js.inherited (description (snd o)) = false) (occurrences days))
    as Hinh by (eapply Forall_impl; [exact Hplain|]; now intros o [_ H]).
  assert (Forall (fun o => Js.is_array_index (description (snd o)) = false) (occurrences days))
    as Hidx by (eapply Forall_impl; [exact Hplain|]; now intros o [H _]).
  pose proof (scan_keys_first_met _ (occurrences_recurring days) Hinh) as Hkeys.
  pose proof (scan_names days) as Hn.
  unfold unsorted, encounter_order, first_met. rewrite <- Hkeys, <- scan_occurrences.
  assert (forall d, Js.inherited d = false ->
            counted d (occurrences days) (scan days).1 /\
            seeded d (occurrences days) (scan days).2) as Hscan.
  { intros d Hd. rewrite scan_occurrences.
    apply (scan_plain_name d _ Hd (occurrences_recurring days)). }
  destruct (scan days) as [c p]. cbn [fst snd] in *.
  rewrite entries_creation_order.
  2:{ eapply Forall_impl; [exact Hn|]. intros kv (o & Ho & <-).
      rewrite Forall_forall in Hidx. now apply Hidx. }
  symmetry. apply omap_map_Forall. apply Forall_forall. intros [d pd] Hkv. cbn [fst].
  rewrite Forall_forall in Hn. rewrite Forall_forall in Hinh. destruct (Hn _ Hkv) as (o & Ho & Hd). cbn [fst] in Hd.
  assert (Js.inherited d = false) as Hplain_d by (rewrite <- Hd; now apply Hinh).
  destruct (Hscan d Hplain_d) as [Hc Hs]. unfold counted, seeded in Hc, Hs.
  assert (In (d, pd) (List.filter (fun kv => String.eqb (fst kv) d) p)) as Hin.
  { apply filter_In. split; [now apply list_elem_of_In|apply String.eqb_refl]. }
  rewrite Hs in Hin. unfold expected, first_occurrence, occurrence_count.
  destruct (List.find (described d) (occurrences days)) as [[day tx]|] eqn:Hf;
    [|contradiction].
  destruct Hin as [Heq|[]]. injection Heq as <-.
  apply find_some in Hf as [Hin Hdesc]. unfold described in Hdesc. cbn [snd] in Hdesc.
  apply String.eqb_eq in Hdesc.
  destruct (length (List.filter (described d) (occurrences days))) as [|n] eqn:Hlen.
  { exfalso. apply length_zero_iff_nil in Hlen.
    assert (In (day, tx) (List.filter (described d) (occurrences days))) as C.
    { apply filter_In. split; [exact Hin|]. unfold described. cbn [snd]. rewrite Hdesc.
      apply String.eqb_refl. }
    rewrite Hlen in C. contradiction. }
  f_equal. unfold build, count_of, entry_of, isWeekly. rewrite Hc. cbn [seed pd_id pd_name
    pd_amount pd_date pd_category pd_status]. now rewrite Hdesc.
Qed.

(** The encounter order lists the descriptions as the payload first
    shows them, whatever they are. *)
Lemma encounter_order_names days : map name (encounter_order days) = first_met days.
Proof.
  unfold encounter_order.
  assert (Forall (fun d => exists e, expected days d = Some e /\ name e = d) (first_met days))
    as H.
  { apply Forall_forall. intros d Hd. apply first_met_elem in Hd as (o & Ho & Hdesc).
    unfold expected, first_occurrence.
    destruct (List.find (described d) (occurrences days)) as [[day tx]|] eqn:Hf.
    - eexists. split; [reflexivity|]. apply find_some in Hf as [_ H].
      unfold described in H. now apply String.eqb_eq in H.
    - exfalso. apply list_elem_of_In in Ho. pose proof (find_none _ _ Hf o Ho) as C.
      unfold described in C. rewrite Hdesc, String.eqb_refl in C. discriminate C. }
  induction H as [|d l (e & He & Hn) _ IH]; cbn; [reflexivity|].
  rewrite He. cbn. now rewrite Hn, IH.
Qed.

(** C9, amended: the aggregated list is in descending order of
    monthlyTotal; elements of equal monthlyTotal keep the relative order
    in which [Object.keys] enumerates [paymentData]; whenever no recurring
    description is an array index or a member of [Object.prototype], that
    order is the encounter order: the list before [sort] holds one element
    per description, in the order in which the payload first shows the
    descriptions, and ties keep that order. *)
Theorem sorted_by_total_stable (days : list CalendarDay) :
  descending monthlyTotal (allRecurring days) /\
  (forall v : Q,
     List.filter (tied monthlyTotal v) (allRecurring days) =
     List.filter (tied monthlyTotal v) (unsorted days)) /\
  map name (encounter_order days) = first_met days /\
  (plain_names days ->
   unsorted days = encounter_order days /\ ties_keep_encounter_order days).
Proof.
  split; [apply (sort_descending monthlyTotal)|].
  split; [intros v; apply (sort_stable monthlyTotal)|].
  split; [apply encounter_order_names|].
  intros Hplain. pose proof (unsorted_encounter_order days Hplain) as E.
  split; [exact E|].
  intros v. unfold allRecurring. rewrite <- E. apply (sort_stable monthlyTotal).
Qed.

Example may_days_ties :
  plain_names may_days /\
  first_met may_days = ["Gym"; "Renta"; "Despensa Semanal"; "Netflix"] /\
  map name (List.filter (tied monthlyTotal 100) (allRecurring may_days)) = ["Renta"; "Netflix"] /\
  map name (List.filter (tied monthlyTotal 100) (encounter_order may_days)) = ["Renta"; "Netflix"].
Proof.
  split; [|repeat split; vm_compute; reflexivity].
  repeat constructor.
Qed.

(** The amended claim leaves the members of [Object.prototype] out: met
    first, "constructor" is recorded at its second occurrence and so
    comes after "Luz", which ties with it. *)
Example inherited_description_reordered :
  first_met constructor_luz = ["constructor"; "Luz"] /\
  map name (allRecurring constructor_luz) = ["Luz"; "constructor"] /\
  map monthlyTotal (allRecurring constructor_luz) = [100%Q; 100%Q].
Proof. repeat split; vm_compute; reflexivity. Qed.

Lemma status_or_default_typed s : typed_status s -> status_or_default s ∈ vocabulary.
Proof.
  intros [[->| ->]|(v & -> & Hv)]; try (left; fail).
  unfold vocabulary in Hv. set_unfold in Hv.
  destruct Hv as [->|[->|[->|[]]]]; cbn; set_solver.
Qed.

(** Every element of the aggregated list carries the status of the
    occurrence that seeded it, or "pendiente" when that status is missing
    or empty; for a description outside [Object.prototype] the seeding
    occurrence is the first one met; and when every raw status is missing,
    empty or one of pendiente, pagado, vencido, every element's status is
    one of the three. *)
Lemma status_defaults (days : list CalendarDay) :
  (forall e, e ∈ allRecurring days ->
     exists day tx, (day, tx) ∈ occurrences days /\ name e = description tx /\
                    id e = tx_id tx /\ status e = status_or_default (payment_status tx)) /\
  (forall s, falsy s -> status_or_default s = "pendiente") /\
  (forall d day tx,
     Js.inherited d = false ->
     first_occurrence d days = Some (day, tx) ->
     falsy (payment_status tx) ->
     exists e, List.filter (fun e => String.eqb (name e) d) (allRecurring days) = [e] /\
               id e = tx_id tx /\ status e = "pendiente") /\
  (Forall (fun o => typed_status (payment_status (snd o))) (occurrences days) ->
   forall e, e ∈ allRecurring days -> status e ∈ vocabulary).
Proof.
  assert (forall e, e ∈ allRecurring days ->
     exists day tx, (day, tx) ∈ occurrences days /\ name e = description tx /\
                    id e = tx_id tx /\ status e = status_or_default (payment_status tx)) as H1.
  { intros e He. destruct (allRecurring_elem days e He) as (day & tx & n & Ho & ->).
    now exists day, tx. }
  split; [exact H1|]. split; [now intros s [-> | ->]|]. split.
  - intros d day tx Hd Hf Hs.
    pose proof (one_entry_per_description days d Hd) as H. rewrite Hf in H.
    destruct H as (e & He & Hid & _ & _ & _ & _ & Hst & _).
    exists e. split; [exact He|]. split; [exact Hid|].
    rewrite Hst. now destruct Hs as [-> | ->].
  - intros Hty e He. destruct (H1 e He) as (day & tx & Ho & _ & _ & ->).
    rewrite Forall_forall in Hty. apply status_or_default_typed, (Hty _ Ho).
Qed.

(** C10: the claim wants "pendiente" when the first occurrence of a
    description has no payment status.  The first occurrence of
    "constructor" has none, but it is not taken for a first sighting
    ([paymentCounts["constructor"]] reads the inherited [Object]
    function): the element is seeded from the second occurrence and shows
    its status, "pagado". *)
Theorem inherited_status_not_defaulted :
  (exists day tx,
     first_occurrence "constructor" constructor_twice = Some (day, tx) /\
     tx_id tx = "t7" /\ payment_status tx = None) /\
  map (fun e => (name e, id e, status e)) (allRecurring constructor_twice) =
    [("constructor", "t8", "pagado")].
Proof. split; [eexists _, _; repeat split|vm_compute; reflexivity]. Qed.

Example may_days_statuses :
  map (fun e => (name e, status e)) (allRecurring may_days) =
  [ ("Gym", "pagado"); ("Renta", "pendiente"); ("Netflix", "vencido");
    ("Despensa Semanal", "pendiente") ].
Proof. vm_compute. reflexivity. Qed.

End AggregationOrder.

(** * The optimistic status updates *)

Section StatusUpdate.

(** What the due-item updater shows after a failed update: the answer of
    the refetch, or the optimistic list when the refetch fails as well. *)
Lemma pending_failure (paymentId newStatus : string)
    (refetch : option (option (list PendingPayments.DueItem))) (st : PendingPayments.state) :
  PendingPayments.payments (PendingPayments.updateStatus paymentId newStatus false refetch st) =
  match refetch with
  | Some data => map PendingPayments.format (default [] data)
  | None => PendingPayments.optimistic paymentId newStatus (PendingPayments.payments st)
  end.
Proof. now destruct refetch. Qed.

(** C1 as stated fails for the due-item updater, which keeps no snapshot.
    The rent was paid and is still listed; marking the gas overdue fails;
    the refetch of the pending items answers the gas alone, and the list
    after the failure is that answer, not the two items of before. *)
Lemma refetch_is_not_the_snapshot :
  ~ restored "d2" "vencido" (Some (Some [gas_item])) rent_paid_gas_due.
Proof. unfold restored. rewrite pending_failure. discriminate. Qed.

(** C1, amended: when the remote call of the recurring-payment updater
    fails, the list becomes the snapshot taken before the optimistic
    update, whole, whatever it has become in between.  When the remote
    call of the due-item updater fails and the refetch of its handler
    succeeds, the list becomes the formatted answer of that refetch,
    whole. *)
Theorem failed_update_outcome (paymentId newStatus : string)
    (recurringPayments later : list RecurringPayments.RecurringPayment)
    (data : option (list PendingPayments.DueItem)) (st : PendingPayments.state) :
  RecurringPayments.updateStatus_settle false
    (snd (RecurringPayments.updateStatus_begin paymentId newStatus recurringPayments))
    later = recurringPayments /\
  RecurringPayments.updateStatus paymentId newStatus false recurringPayments =
    recurringPayments /\
  PendingPayments.payments
    (PendingPayments.updateStatus paymentId newStatus false (Some data) st) =
    map PendingPayments.format (default [] data).
Proof. repeat split. Qed.

(** Between the optimistic update and the failure the new status shows. *)
Example recurring_optimistic_then_rollback :
  let before := RecurringPayments.allRecurring may_days in
  let '(shown, call) := RecurringPayments.updateStatus_begin "b1" "pagado" before in
  map RecurringPayments.status shown = ["pagado"; "pagado"; "vencido"; "pendiente"] /\
  map RecurringPayments.status (RecurringPayments.updateStatus_settle false call shown) =
    ["pagado"; "pendiente"; "vencido"; "pendiente"].
Proof. vm_compute. split; reflexivity. Qed.

(** When the update and the refetch both fail, nothing reverts the
    optimistic status. *)
Example pending_double_failure :
  let st := PendingPayments.updateStatus "d1" "pagado" false None rent_due in
  map PendingPayments.status (PendingPayments.payments st) = ["pagado"] /\
  map PendingPayments.status (PendingPayments.payments rent_due) = ["pendiente"] /\
  ~ restored "d1" "pagado" None rent_due.
Proof. repeat split. discriminate. Qed.

End StatusUpdate.

(** * The portfolio *)

Section Prices.

Import CryptoPortfolio.


(** C7: a rejected price fetch leaves the price map, and with it the
    valuation of every holding and the totals, as they were, and raises a
    non-empty error flag; so it is after any history of polls. *)
Theorem failed_poll_keeps_prices (now : Z) (st : state) :
  let st' := fetchPrices now Rejected st in
  prices st' = prices st /\
  portfolioData (prices st') = portfolioData (prices st) /\
  totals (portfolioData (prices st')) = totals (portfolioData (prices st)) /\
  lastUpdated st' = lastUpdated st /\
  (exists flag, error st' = Some flag /\ flag <> "") /\
  forall polls : list (Z * outcome),
    prices (polling (polls ++ [(now, Rejected)]) st) = prices (polling polls st).
Proof.
  cbv zeta. repeat split.
  - now exists "Error updating prices".
  - intros polls. unfold polling. now rewrite fold_left_app.
Qed.

Example failed_poll_after_success :
  let st := fetchPrices 1730000000000 (Fulfilled (Some chainlink_20)) initial in
  let st' := fetchPrices 1730000060000 Rejected st in
  prices st' = chainlink_20 /\ error st = None /\ error st' = Some "Error updating prices".
Proof. repeat split. Qed.

Local Open Scope float_scope.

Example LINK_configured : CRYPTO_HOLDINGS !! 0%nat = Some LINK.
Proof. reflexivity. Qed.

(** C2 as stated fails: with LINK at 20 the value is 83.48, but the profit
    is not within 0.4 of -17.80. *)
Lemma link_profit_is_not_17_80 :
  ~ (near (value (valuate chainlink_20 LINK)) 83.48 0.005 = true /\
     near (profit (valuate chainlink_20 LINK)) (-17.80) 0.4 = true).
Proof. intros [_ H]. vm_compute in H. discriminate H. Qed.

(** C2, amended: with LINK at 20, the value of 4.174 LINK is 83.48 and the
    profit is -18.28 to the cent; the profit of any holding is its value
    minus amount times avgBuyPrice, plus realizedProfit, which counts as 0
    when missing. *)
Theorem link_valuation :
  value (valuate chainlink_20 LINK) = 83.48 /\
  near (profit (valuate chainlink_20 LINK)) (-18.28) 0.005 = true /\
  (forall prices holding,
     profit (valuate prices holding) =
     (value (valuate prices holding) - amount holding * avgBuyPrice holding)
     + or_zero (realizedProfit holding)) /\
  or_zero None = 0.
Proof. repeat split; vm_compute; reflexivity. Qed.

End Prices.

(** * The dashboard fetches *)

Section Fetches.

Import Dashboard.
Context {payload item : Type}.

(** C8: after the seven concurrent fetches settle, the error banner is set
    exactly when all of them were rejected; each slice holds the fetched
    data when its fetch was fulfilled and its prior value otherwise. *)
Theorem banner_iff_all_failed (showLoading : bool) (rs : results payload item)
    (st : state payload item) :
  let st' := fetchAllData _ _ showLoading rs st in
  (error _ _ st' <> None <-> all_failed rs) /\
  (error _ _ st' = None <-> ~ all_failed rs) /\
  slice (summaryRes _ _ rs) (fun v => v) (summary _ _ st) (summary _ _ st') /\
  slice (cashflowRes _ _ rs) (default []) (cashflow _ _ st) (cashflow _ _ st') /\
  slice (tagRes _ _ rs) (default []) (tagDistribution _ _ st) (tagDistribution _ _ st') /\
  slice (calendarRes _ _ rs) (fun v => v) (calendar _ _ st) (calendar _ _ st') /\
  slice (savingsRes _ _ rs) (fun v => v) (savings_progress _ _ st) (savings_progress _ _ st') /\
  slice (transactionsRes _ _ rs) (fun v => v) (transactions _ _ st) (transactions _ _ st') /\
  slice (categoryRes _ _ rs) (default [])
    (categoryDistribution _ _ st) (categoryDistribution _ _ st').
Proof.
  assert (forallb (fun r : bool => r) (statuses _ _ rs) = true <-> all_failed rs) as Hall.
  { unfold all_failed, statuses. destruct rs as [r1 r2 r3 r4 r5 r6 r7]. cbn.
    destruct r1, r2, r3, r4, r5, r6, r7; cbn; intuition congruence. }
  cbv zeta. unfold fetchAllData. cbn [error summary cashflow tagDistribution calendar
    savings_progress transactions categoryDistribution].
  destruct (forallb (fun r : bool => r) (statuses _ _ rs)).
  - assert (all_failed rs) by now apply Hall.
    split; [intuition congruence|]. split; [intuition congruence|].
    unfold slice, store, store_list. now destruct rs as [[] [] [] [] [] [] []].
  - assert (~ all_failed rs) by (intros H; apply Hall in H; discriminate H).
    split; [intuition congruence|]. split; [intuition congruence|].
    unfold slice, store, store_list. now destruct rs as [[] [] [] [] [] [] []].
Qed.

End Fetches.

(** Six of the seven fetches fail and the calendar fetch succeeds: no
    banner, the calendar is stored, the other slices stay empty. *)
Example only_calendar_fetched :
  let st0 :=
    {| Dashboard.loading := true; Dashboard.refreshing := false; Dashboard.error := None;
       Dashboard.summary := None; Dashboard.cashflow := []; Dashboard.tagDistribution := [];
       Dashboard.categoryDistribution := []; Dashboard.calendar := None;
       Dashboard.savings_progress := None; Dashboard.transactions := None |} in
  let rs :=
    {| Dashboard.summaryRes := Dashboard.rejected; Dashboard.cashflowRes := Dashboard.rejected;
       Dashboard.tagRes := Dashboard.rejected;
       Dashboard.calendarRes := Dashboard.fulfilled (Some may_days);
       Dashboard.savingsRes := Dashboard.rejected;
       Dashboard.transactionsRes := Dashboard.rejected;
       Dashboard.categoryRes := Dashboard.rejected |} in
  let st := Dashboard.fetchAllData _ nat true rs st0 in
  Dashboard.error _ _ st = None /\ Dashboard.calendar _ _ st = Some may_days /\
  Dashboard.summary _ _ st = None /\ Dashboard.cashflow _ _ st = [] /\
  Dashboard.loading _ _ st = false.
Proof. repeat split. Qed.

(** * The savings projection *)

Section Savings.

Import Dashboard.
Local Open Scope R_scope.

Lemma calculateSavings_checkpoint accounts a0 a1 now last st :
  accounts !! 0%nat = Some a0 -> accounts !! 1%nat = Some a1 ->
  savingsLastUpdate st = Some (Js.toString last) ->
  calculateSavings accounts now st =
  let days := IZR (now - last) / 86400000 in
  let total := Num (principal a0 * Rpower (1 + annualRate a0 / 365) days +
                    principal a1 * Rpower (1 + annualRate a1 / 365) days) in
  Some (total, {| totalSavings := total; savingsLastUpdate := Some (Js.toString now) |}).
Proof.
  intros H0 H1 Hst. unfold calculateSavings. rewrite H0, H1, Hst.
  destruct (toString_truthy last) as (c & r & E). rewrite E.
  rewrite <- E, parseInt_toString. cbv zeta. unfold Math_pow.
  replace (1000 * 60 * 60 * 24) with 86400000 by lra. reflexivity.
Qed.

Lemma calculateSavings_fresh accounts a0 a1 now st :
  accounts !! 0%nat = Some a0 -> accounts !! 1%nat = Some a1 ->
  savingsLastUpdate st = None ->
  calculateSavings accounts now st =
  let total := Num (principal a0 + principal a1) in
  Some (total, {| totalSavings := total; savingsLastUpdate := Some (Js.toString now) |}).
Proof. intros H0 H1 Hst. unfold calculateSavings. now rewrite H0, H1, Hst. Qed.

(** C3: with a checkpoint [last] and the current time [now], the
    computation returns the sum over the accounts of the table of
    principal * (1 + annualRate / 365) ^ ((now - last) / 86400000), the
    exponent a fractional number of days; without a checkpoint it returns
    the sum of the principals, 52711.57; either way the total is stored
    and the checkpoint becomes [now].  The bases of the powers are
    positive. *)
Theorem savings_projection (now : Z) (st : savings) :
  (forall last : Z,
     savingsLastUpdate st = Some (Js.toString last) ->
     exists st',
       calculateSavings SAVINGS_ACCOUNTS now st =
         Some (Num (projected SAVINGS_ACCOUNTS (IZR (now - last) / 86400000)), st') /\
       totalSavings st' = Num (projected SAVINGS_ACCOUNTS (IZR (now - last) / 86400000)) /\
       savingsLastUpdate st' = Some (Js.toString now)) /\
  (savingsLastUpdate st = None ->
     exists st',
       calculateSavings SAVINGS_ACCOUNTS now st =
         Some (Num (total_principal SAVINGS_ACCOUNTS), st') /\
       totalSavings st' = Num (total_principal SAVINGS_ACCOUNTS) /\
       savingsLastUpdate st' = Some (Js.toString now)) /\
  total_principal SAVINGS_ACCOUNTS = 5271157 / 100 /\
  Forall sound_rate SAVINGS_ACCOUNTS.
Proof.
  repeat split.
  - intros last Hst.
    rewrite (calculateSavings_checkpoint SAVINGS_ACCOUNTS _ _ now last st eq_refl eq_refl Hst).
    cbv zeta. unfold projected, SAVINGS_ACCOUNTS. cbn [foldr principal annualRate].
    rewrite Rplus_0_r. eexists. split; [reflexivity|]. split; reflexivity.
  - intros Hst.
    rewrite (calculateSavings_fresh SAVINGS_ACCOUNTS _ _ now st eq_refl eq_refl Hst).
    cbv zeta. unfold total_principal, SAVINGS_ACCOUNTS. cbn [foldr principal].
    rewrite Rplus_0_r. eexists. split; [reflexivity|]. split; reflexivity.
  - unfold total_principal, SAVINGS_ACCOUNTS. cbn [foldr principal]. lra.
  - repeat constructor; unfold sound_rate; cbn [annualRate]; lra.
Qed.

(** One day after the checkpoint. *)
Example savings_projection_ex :
  exists st',
    calculateSavings SAVINGS_ACCOUNTS 1730086400000 (checkpoint 1730000000000) =
      Some (Num (25000 * Rpower (1 + 13 / 100 / 365) (IZR 86400000 / 86400000) +
                 2771157 / 100 * Rpower (1 + 7 / 100 / 365) (IZR 86400000 / 86400000)), st') /\
    savingsLastUpdate st' = Some "1730086400000".
Proof.
  rewrite (calculateSavings_checkpoint SAVINGS_ACCOUNTS _ _ 1730086400000 1730000000000
             (checkpoint 1730000000000) eq_refl eq_refl eq_refl).
  cbv zeta. eexists. split; reflexivity.
Qed.

Lemma Rpower_zero x : Rpower x 0 = 1.
Proof. unfold Rpower. rewrite Rmult_0_l. apply exp_0. Qed.

(** With two accounts in the table the computation returns, and stamps
    the checkpoint with its time. *)
Lemma calculateSavings_returns accounts a0 a1 now st :
  accounts !! 0%nat = Some a0 -> accounts !! 1%nat = Some a1 ->
  exists first st1,
    calculateSavings accounts now st = Some (first, st1) /\
    savingsLastUpdate st1 = Some (Js.toString now).
Proof.
  intros H0 H1. unfold calculateSavings. rewrite H0, H1. now eexists _, _.
Qed.

(** The second of two computations depends on the time between them and
    on the static principals, not on what the first one returned. *)
Lemma successive_totals accounts a0 a1 now later st :
  accounts !! 0%nat = Some a0 -> accounts !! 1%nat = Some a1 ->
  exists first,
    fst <$> calculateSavings accounts now st = Some first /\
    successive accounts now later st =
      Some (first, Num (projected [a0; a1] (IZR (later - now) / 86400000))).
Proof.
  intros H0 H1.
  destruct (calculateSavings_returns accounts a0 a1 now st H0 H1) as (first & st1 & E & Hst1).
  exists first. unfold successive. rewrite E. split; [reflexivity|].
  rewrite (calculateSavings_checkpoint _ _ _ _ _ _ H0 H1 Hst1). cbv zeta.
  unfold projected. cbn [foldr]. now rewrite Rplus_0_r.
Qed.

Lemma projected_zero a0 a1 (now : Z) :
  projected [a0; a1] (IZR (now - now) / 86400000) = total_principal [a0; a1].
Proof.
  replace (IZR (now - now) / 86400000) with 0 by (rewrite Z.sub_diag; lra).
  unfold projected, total_principal. cbn [foldr]. rewrite !Rpower_zero. lra.
Qed.

(** C6 as stated fails: one day after the checkpoint, the first of two
    immediate computations compounds one day of interest and the second
    returns the bare principals, so the two totals differ. *)
Lemma second_total_differs : ~ same_total SAVINGS_ACCOUNTS 86400000 (checkpoint 0).
Proof.
  intros [total H].
  destruct (successive_totals SAVINGS_ACCOUNTS _ _ 86400000 86400000 (checkpoint 0)
              eq_refl eq_refl) as (first & Hfirst & Hboth).
  rewrite Hboth in H. injection H as H1 H2. subst first.
  rewrite (calculateSavings_checkpoint SAVINGS_ACCOUNTS _ _ 86400000 0 (checkpoint 0)
             eq_refl eq_refl eq_refl) in Hfirst.
  cbv zeta in Hfirst. cbn [fmap option_fmap option_map fst] in Hfirst.
  rewrite <- H2 in Hfirst. injection Hfirst as Hfirst.
  replace (IZR (86400000 - 0) / 86400000) with 1 in Hfirst by (rewrite Z.sub_0_r; lra).
  replace (IZR (86400000 - 86400000) / 86400000) with 0 in Hfirst
    by (rewrite Z.sub_diag; lra).
  rewrite !Rpower_1, !Rpower_zero in Hfirst by lra. lra.
Qed.

(** C6, amended: of two successive computations, the second returns the
    two static principals compounded over the time between the two calls
    only, whatever the first returned; with no time between them it
    returns the sum of the two principals.  The two totals are the same
    when the first call also saw no elapsed time: no checkpoint, or a
    checkpoint at the time of the call. *)
Theorem second_total_is_baseline (accounts : list SavingsAccount) (a0 a1 : SavingsAccount)
    (now later : Z) (st : savings) :
  accounts !! 0%nat = Some a0 -> accounts !! 1%nat = Some a1 ->
  exists first,
    fst <$> calculateSavings accounts now st = Some first /\
    successive accounts now later st =
      Some (first, Num (projected [a0; a1] (IZR (later - now) / 86400000))) /\
    successive accounts now now st = Some (first, Num (total_principal [a0; a1])) /\
    (savingsLastUpdate st = None \/ savingsLastUpdate st = Some (Js.toString now) ->
     first = Num (total_principal [a0; a1]) /\ same_total accounts now st).
Proof.
  intros H0 H1.
  destruct (successive_totals accounts a0 a1 now later st H0 H1) as (first & Hfirst & Hlater).
  destruct (successive_totals accounts a0 a1 now now st H0 H1) as (first' & Hfirst' & Hnow).
  rewrite Hfirst in Hfirst'. injection Hfirst' as <-. rewrite projected_zero in Hnow.
  exists first. split; [exact Hfirst|]. split; [exact Hlater|]. split; [exact Hnow|].
  intros Hzero.
  assert (first = Num (total_principal [a0; a1])) as ->.
  { destruct Hzero as [Hst|Hst].
    - rewrite (calculateSavings_fresh _ _ _ _ _ H0 H1 Hst) in Hfirst.
      cbv zeta in Hfirst. cbn [fmap option_fmap option_map fst] in Hfirst.
      injection Hfirst as <-. unfold total_principal. cbn [foldr]. now rewrite Rplus_0_r.
    - rewrite (calculateSavings_checkpoint _ _ _ _ _ _ H0 H1 Hst) in Hfirst.
      cbv zeta in Hfirst. cbn [fmap option_fmap option_map fst] in Hfirst.
      injection Hfirst as <-. f_equal. rewrite <- (projected_zero a0 a1 now).
      unfold projected. cbn [foldr]. now rewrite Rplus_0_r. }
  split; [reflexivity|]. now exists (Num (total_principal [a0; a1])).
Qed.

Lemma second_total_is_baseline_witness :
  exists first,
    successive SAVINGS_ACCOUNTS 86400000 86400000 (checkpoint 0) =
    Some (first, Num (total_principal SAVINGS_ACCOUNTS)).
Proof.
  destruct (second_total_is_baseline SAVINGS_ACCOUNTS _ _ 86400000 86400000 (checkpoint 0)
              eq_refl eq_refl) as (first & _ & _ & H & _).
  exists first. exact H.
Defined.

End Savings.

(** * Invariants of the aggregation, the panels, the calendar and the hooks *)

Section AggregationInvariants.

Import RecurringPayments.

Lemma put_keys {V} (k : string) (v : V) (o : Js.object V) (k' : string) :
  k' ∈ map fst (Js.put k v o) -> k' = k \/ k' ∈ map fst o.
Proof.
  intros H. apply list_elem_of_fmap in H as (kv & -> & Hkv).
  apply put_elem in Hkv as [-> | Hkv]; [now left|].
  right. apply list_elem_of_fmap. now exists kv.
Qed.

Lemma put_keys_NoDup {V} (k : string) (v : V) (o : Js.object V) :
  NoDup (map fst o) -> NoDup (map fst (Js.put k v o)).
Proof.
  induction o as [|[k0 v0] r IH]; cbn; intros H.
  - repeat constructor. apply not_elem_of_nil.
  - apply NoDup_cons in H as [Hk0 Hr].
    destruct (String.eqb_spec k0 k) as [->|Hne]; cbn.
    + now apply NoDup_cons.
    + apply NoDup_cons. split; [|now apply IH].
      intros [->|Hin]%put_keys; [congruence|contradiction].
Qed.

Lemma visit_keys_NoDup o st :
  NoDup (map fst st.2) -> NoDup (map fst (visit_occurrence st o).2).
Proof.
  destruct o as [day tx], st as [c p]. unfold visit_occurrence, visit. cbn [fst snd].
  destruct (is_recurring tx); [|easy].
  destruct (unseen c (description tx)); cbn [fst snd]; [|easy].
  unfold Js.set. destruct (String.eqb _ "__proto__"); [easy|]. apply put_keys_NoDup.
Qed.

Lemma scan_keys_NoDup days : NoDup (map fst (scan days).2).
Proof.
  rewrite scan_occurrences.
  assert (forall l st, NoDup (map fst st.2) ->
            NoDup (map fst (fold_left visit_occurrence l st).2)) as H.
  { induction l as [|o l IH]; intros st Hst; [exact Hst|].
    cbn [fold_left]. now apply IH, visit_keys_NoDup. }
  apply H. constructor.
Qed.

Lemma scan_key_is_name days :
  Forall (fun kv => pd_name kv.2 = kv.1) (scan days).2.
Proof.
  pose proof (scan_recorded (occurrences days) (occurrences_recurring days)) as [_ Hall].
  rewrite <- scan_occurrences in Hall.
  eapply Forall_impl; [exact Hall|]. intros [k pd] [_ (o & _ & Hk & Hpd)].
  cbn [fst snd] in *. now subst.
Qed.

Lemma allRecurring_names days : map name (allRecurring days) ≡ₚ map fst (scan days).2.
Proof.
  rewrite allRecurring_Permutation. rewrite map_map.
  pose proof (scan_key_is_name days) as H.
  induction H as [|[k pd] r Hk _ IH]; [reflexivity|].
  cbn [map]. rewrite IH. cbn [fst snd] in Hk. unfold build at 1. cbn. now rewrite Hk.
Qed.

(** X1: no two elements of the aggregated list share a name, whatever the
    payload. *)
Theorem aggregated_names_unique (days : list CalendarDay) :
  NoDup (map name (allRecurring days)).
Proof. rewrite allRecurring_names. apply scan_keys_NoDup. Qed.

Lemma not_overcounted_step l o st :
  is_recurring (snd o) = true ->
  not_overcounted l st.1 -> not_overcounted (l ++ [o]) (visit_occurrence st o).1.
Proof.
  intros Hrec Hb k n Hk. rewrite List.filter_app, length_app.
  destruct (String.eqb_spec (description (snd o)) k) as [E|E].
  - destruct o as [day tx], st as [c p]. cbn [fst snd] in *. subst k.
    cbn [List.filter]. unfold described at 2. cbn [snd]. rewrite String.eqb_refl. cbn [length].
    unfold visit_occurrence, visit in Hk. cbn [fst snd] in Hk. rewrite Hrec in Hk.
    set (d := description tx) in *.
    assert (forall m : gmap string counter,
              (forall j, m !! d = Some (CNum j) ->
                         (j <= length (List.filter (described d) l))%nat) ->
              increment d m !! d = Some (CNum n) ->
              (n <= length (List.filter (described d) l) + 1)%nat) as Hincr.
    { intros m Hm. unfold increment, set_count.
      destruct (String.eqb d "__proto__").
      - intros H. specialize (Hm _ H). lia.
      - rewrite lookup_insert_eq. destruct (m !! d) as [[j|]|] eqn:Ej; try discriminate.
        intros [= <-]. specialize (Hm _ eq_refl). lia. }
    destruct (unseen c d); cbn [fst snd] in Hk; apply (Hincr _ ltac:(idtac) Hk) || idtac.
    + revert Hk. apply Hincr. intros j. unfold set_count.
      destruct (String.eqb d "__proto__"); [apply Hb|].
      rewrite lookup_insert_eq. intros [= <-]. lia.
    + revert Hk. apply Hincr. apply Hb.
  - destruct (visit_other k o st E) as [Hsame _]. rewrite Hsame in Hk.
    specialize (Hb _ _ Hk). lia.
Qed.

Lemma scan_not_overcounted days : not_overcounted (occurrences days) (scan days).1.
Proof.
  rewrite scan_occurrences. pose proof (occurrences_recurring days) as Hl.
  induction (occurrences days) as [|o l IH] using rev_ind.
  - intros k n H. cbn in H. now rewrite lookup_empty in H.
  - apply Forall_app in Hl as [Hl Ho]. apply Forall_inv in Ho.
    rewrite fold_left_app. cbn [fold_left]. now apply not_overcounted_step, IH.
Qed.

(** X2: every element counts at least one occurrence and at most the
    occurrences that the payload has of its name. *)
Theorem aggregated_counts_bounded (days : list CalendarDay) (e : RecurringPayment) :
  e ∈ allRecurring days ->
  (1 <= count e <= occurrence_count (name e) days)%nat.
Proof.
  intros He. rewrite allRecurring_Permutation in He.
  apply list_elem_of_fmap in He as ([k pd] & -> & Hkv).
  pose proof (scan_recorded (occurrences days) (occurrences_recurring days)) as [_ Hall].
  rewrite <- scan_occurrences in Hall. rewrite Forall_forall in Hall.
  destruct (Hall _ Hkv) as [[n Hn] (o & _ & Hk & Hpd)]. cbn [fst snd] in *.
  pose proof (scan_not_overcounted days _ _ Hn) as Hle.
  unfold build, count_of. rewrite Hn. cbn [count name]. rewrite Hpd. cbn [pd_name seed].
  rewrite Hk. unfold occurrence_count. lia.
Qed.

Lemma aggregated_counts_bounded_witness :
  exists e, hd_error (allRecurring may_days) = Some e /\
            (1 <= count e <= occurrence_count (name e) may_days)%nat.
Proof.
  eexists. split; [vm_compute; reflexivity|].
  apply (aggregated_counts_bounded may_days). vm_compute. left.
Defined.

End AggregationInvariants.

Section AggregationWhole.

Import RecurringPayments.

(** X3: when no recurring description is a member of [Object.prototype],
    the names of the aggregated list are the distinct recurring
    descriptions of the payload, each one once. *)
Theorem aggregated_names_are_descriptions (days : list CalendarDay) :
  Forall (fun o => Js.inherited (description (snd o)) = false) (occurrences days) ->
  map name (allRecurring days) ≡ₚ descriptions days /\
  length (allRecurring days) = length (descriptions days).
Proof.
  intros Hplain.
  assert (map name (allRecurring days) ≡ₚ descriptions days) as HP.
  { apply NoDup_Permutation.
    - rewrite allRecurring_names. apply scan_keys_NoDup.
    - apply NoDup_remove_dups.
    - intros d. unfold descriptions. rewrite elem_of_remove_dups. split.
      + intros (e & -> & He)%list_elem_of_fmap.
        apply allRecurring_elem in He as (day & tx & n & Ho & ->).
        apply list_elem_of_fmap. now exists (day, tx).
      + intros ([day tx] & -> & Ho)%list_elem_of_fmap. cbn [snd].
        rewrite Forall_forall in Hplain. pose proof (Hplain _ Ho) as Hd. cbn [snd] in Hd.
        pose proof (one_entry_per_description days _ Hd) as H.
        destruct (first_occurrence (description tx) days) as [[day' tx']|] eqn:Hf.
        * destruct H as (e & He & Hfrom). apply list_elem_of_fmap. exists e.
          assert (In e (List.filter (fun e => String.eqb (name e) (description tx))
                          (allRecurring days))) as Hin by (rewrite He; now left).
          apply filter_In in Hin as [Hin Hname]. apply String.eqb_eq in Hname.
          split; [now symmetry|]. now apply list_elem_of_In.
        * exfalso. unfold first_occurrence in Hf.
          apply list_elem_of_In in Ho. pose proof (find_none _ _ Hf (day, tx) Ho) as C.
          unfold described in C. cbn [snd] in C. rewrite String.eqb_refl in C.
          discriminate C. }
  split; [exact HP|]. rewrite <- (length_map name). now rewrite HP.
Qed.

Lemma aggregated_names_are_descriptions_witness :
  map name (allRecurring may_days) ≡ₚ descriptions may_days /\
  length (allRecurring may_days) = length (descriptions may_days).
Proof.
  apply (aggregated_names_are_descriptions may_days). vm_compute. repeat constructor.
Defined.

(** X4: a payload without recurring transactions aggregates to the empty
    list. *)
Theorem no_recurring_no_entries (days : list CalendarDay) :
  none_recurring days -> allRecurring days = [].
Proof.
  intros H.
  assert (occurrences days = []) as E.
  { unfold occurrences. induction H as [|day r Hday _ IH]; [reflexivity|].
    cbn [flat_map]. rewrite IH, app_nil_r.
    destruct (transactions day) as [txs|]; [|reflexivity].
    specialize (Hday txs eq_refl). induction Hday as [|tx l Htx _ IHl]; [reflexivity|].
    cbn [List.filter]. rewrite Htx. exact IHl. }
  unfold allRecurring, unsorted. rewrite scan_occurrences, E. reflexivity.
Qed.

Lemma no_recurring_no_entries_witness : allRecurring plain_days = [].
Proof.
  apply (no_recurring_no_entries plain_days).
  repeat constructor; intros txs [= <-]; repeat constructor.
Defined.

End AggregationWhole.

Section StatusPanels.

Lemma fold_left_map_same {A B} (f : B -> A -> B) (g : A -> A) (l : list A) (b : B) :
  (forall s a, f s (g a) = f s a) -> fold_left f (map g l) b = fold_left f l b.
Proof.
  intros H. revert b. induction l as [|a l IH]; intros b; [reflexivity|].
  cbn. now rewrite H, IH.
Qed.

(** X5: the optimistic change of the recurring panel touches the status of
    the elements with the given id and nothing else: every other field,
    the length and the order of the list and the monthly total of the
    footer stay; with an id that no element has, the list stays as it
    is. *)
Theorem status_change_keeps_totals (paymentId newStatus : string)
    (l : list RecurringPayments.RecurringPayment) :
  let l' := RecurringPayments.optimistic paymentId newStatus l in
  map unchanged_fields l' = map unchanged_fields l /\
  map RecurringPayments.status l' =
    map (fun p => if String.eqb (RecurringPayments.id p) paymentId
                  then newStatus else RecurringPayments.status p) l /\
  PaymentPanels.totalMonthly l' = PaymentPanels.totalMonthly l /\
  (Forall (fun p => RecurringPayments.id p <> paymentId) l -> l' = l).
Proof.
  cbv zeta. unfold RecurringPayments.optimistic. repeat split.
  - rewrite map_map. apply map_ext. intros p.
    now destruct (String.eqb (RecurringPayments.id p) paymentId).
  - rewrite map_map. apply map_ext. intros p.
    now destruct (String.eqb (RecurringPayments.id p) paymentId).
  - unfold PaymentPanels.totalMonthly. apply fold_left_map_same. intros s p.
    now destruct (String.eqb (RecurringPayments.id p) paymentId).
  - intros H. induction H as [|p r Hp _ IH]; [reflexivity|]. cbn [map].
    apply String.eqb_neq in Hp. rewrite Hp. now f_equal.
Qed.

Import PendingPayments.

(** X6: two optimistic changes of the pending panel on different ids
    commute, of two changes on the same id the last one wins, and a change
    leaves every field but the status, and with them the total of the
    footer, as they were. *)
Theorem pending_changes_compose (a s b t : string) (l : list Payment) :
  (a <> b -> optimistic b t (optimistic a s l) = optimistic a s (optimistic b t l)) /\
  optimistic a t (optimistic a s l) = optimistic a t l /\
  map pending_fields (optimistic a s l) = map pending_fields l /\
  PaymentPanels.pendingTotal (optimistic a s l) = PaymentPanels.pendingTotal l.
Proof.
  unfold optimistic. repeat split.
  - intros Hab. rewrite !map_map. apply map_ext. intros p.
    destruct (String.eqb (id p) a) eqn:Ea, (String.eqb (id p) b) eqn:Eb;
      cbn [id with_status]; rewrite ?Ea, ?Eb; try reflexivity.
    apply String.eqb_eq in Ea, Eb. congruence.
  - rewrite map_map. apply map_ext. intros p.
    destruct (String.eqb (id p) a) eqn:Ea; cbn [id with_status]; now rewrite Ea.
  - rewrite map_map. apply map_ext. intros p. now destruct (String.eqb (id p) a).
  - unfold PaymentPanels.pendingTotal. apply fold_left_map_same. intros q p.
    now destruct (String.eqb (id p) a).
Qed.

Lemma or_else_nonempty x fallback : fallback <> "" -> or_else x fallback <> "".
Proof. now destruct x as [[|c r]|]. Qed.

(** X7: a fetch of the due items that resolves lists one payment per item,
    in the order of the answer and under the item's id; no payment shown
    has an empty name, category or status; a missing list shows none.  The
    error of an earlier failed fetch is not cleared. *)
Theorem fetched_payments_complete (data : option (list DueItem)) (st : state) :
  let st' := fetchPayments (Some data) st in
  map id (payments st') = map item_id (default [] data) /\
  map amount (payments st') = map item_amount (default [] data) /\
  Forall (fun p => name p <> "" /\ category p <> "" /\ status p <> "") (payments st') /\
  (data = None -> payments st' = []) /\
  loading st' = false /\ error st' = error st.
Proof.
  cbv zeta. cbn [fetchPayments payments loading error]. repeat split.
  - now rewrite map_map.
  - now rewrite map_map.
  - apply Forall_fmap, Forall_true. intros item. cbn.
    repeat split; now apply or_else_nonempty.
  - now intros ->.
Qed.

End StatusPanels.

Section PortfolioRows.

Import CryptoPortfolio.
Local Open Scope float_scope.

Lemma or_zero_number x : is_nan (or_zero x) = false.
Proof.
  destruct x as [v|]; [|reflexivity]. unfold or_zero.
  destruct (is_nan v) eqn:E; cbn [orb]; [reflexivity|].
  destruct (is_zero v); [reflexivity|exact E].
Qed.

(** X8: for every price map the portfolio has one row per configured
    holding, in the configured order; the price and the 24h change of a
    row are never NaN, and both are zero for a coin that the map does not
    quote. *)
Theorem portfolio_rows (prices : gmap string PriceQuote) :
  map holding (portfolioData prices) = CRYPTO_HOLDINGS /\
  Forall (fun a => is_nan (price a) = false /\ is_nan (priceChange a) = false)
    (portfolioData prices) /\
  forall h,
    prices !! default "undefined"%string (Js.get SYMBOL_TO_ID (symbol h)) = None ->
    price (valuate prices h) = 0 /\ priceChange (valuate prices h) = 0.
Proof.
  repeat split.
  - apply Forall_fmap, Forall_true. intros h. cbn. split; apply or_zero_number.
  - cbn. now rewrite H.
  - cbn. now rewrite H.
Qed.

End PortfolioRows.

Section SortedTable.

Import InvestmentsPortfolio.

Lemma sort_insert_rearranges {A} (f : A -> A -> Q) x l : Js.sort_insert f x l ≡ₚ x :: l.
Proof.
  induction l as [|y r IH]; [reflexivity|]. cbn.
  destruct (Qlt_le_dec 0 (f x y)); [|reflexivity].
  rewrite IH. apply perm_swap.
Qed.

Lemma sort_rearranges {A} (f : A -> A -> Q) l : Js.sort f l ≡ₚ l.
Proof.
  induction l as [|x l IH]; [reflexivity|].
  cbn. rewrite sort_insert_rearranges. now rewrite IH.
Qed.

Lemma sort_no_key {A} (f : A -> A -> Q) l :
  (forall a b, (f a b <= 0)%Q) -> Js.sort f l = l.
Proof.
  intros H. induction l as [|x l IH]; [reflexivity|].
  cbn. fold (Js.sort f l). rewrite IH. destruct l as [|y r]; [reflexivity|]. cbn.
  destruct (Qlt_le_dec 0 (f x y)) as [C|_]; [|reflexivity].
  specialize (H x y). exfalso. apply (Qlt_irrefl 0). eapply Qlt_le_trans; eassumption.
Qed.

(** X9: whatever the column and the direction, the sorted table holds the
    rows of the portfolio, each as often as the portfolio does; without a
    sort key the rows keep their order. *)
Theorem sorted_table_rearranges (cfg : sortConfig) (data : list CryptoPortfolio.Asset) :
  sortedPortfolioData cfg data ≡ₚ data /\
  length (sortedPortfolioData cfg data) = length data /\
  (key cfg = None -> sortedPortfolioData cfg data = data).
Proof.
  unfold sortedPortfolioData. pose proof (sort_rearranges (compareFn cfg) data) as HP.
  repeat split; [exact HP|now rewrite HP|].
  intros Hk. apply sort_no_key. intros a b. unfold compareFn. rewrite Hk. apply Qle_refl.
Qed.

End SortedTable.

Section Calendar.

Import DueCalendar.

(** X10: from a month between 1 and 12 both arrows lead to a month between
    1 and 12, one month before and one month after; the month and year
    handed to [onMonthChange] are the ones shown; and each arrow undoes
    the other. *)
Theorem month_navigation (st : shown) :
  valid_month st ->
  let '(prev, prevArgs) := handlePrevMonth st in
  let '(next, nextArgs) := handleNextMonth st in
  valid_month prev /\ valid_month next /\
  month_index prev = (month_index st - 1)%Z /\ month_index next = (month_index st + 1)%Z /\
  prevArgs = (currentMonth prev, currentYear prev) /\
  nextArgs = (currentMonth next, currentYear next) /\
  fst (handleNextMonth prev) = st /\ fst (handlePrevMonth next) = st.
Proof.
  destruct st as [m y]. unfold valid_month, month_index, handlePrevMonth, handleNextMonth.
  cbn [currentMonth currentYear]. intros Hm.
  destruct (Z.eqb_spec m 1) as [E1|E1], (Z.eqb_spec m 12) as [E12|E12];
    cbn [currentMonth currentYear fst]; try lia.
  - subst m. cbn. repeat split; try lia. f_equal; lia.
  - subst m. cbn. repeat split; try lia. f_equal; lia.
  - assert ((m + 1 =? 1)%Z = false) as -> by lia.
    assert ((m - 1 =? 12)%Z = false) as -> by lia.
    cbn. repeat split; try lia; f_equal; lia.
Qed.

Lemma month_navigation_witness :
  fst (handleNextMonth december) = {| currentMonth := 1; currentYear := 2025 |} /\
  fst (handlePrevMonth (fst (handleNextMonth december))) = december.
Proof.
  pose proof (month_navigation december ltac:(unfold valid_month; cbn; lia)) as H.
  cbn in H. destruct H as (_ & _ & _ & _ & _ & _ & _ & H). split; [reflexivity|exact H].
Defined.

Lemma append_inv_head (s a b : string) : s ++ a = s ++ b -> a = b.
Proof. induction s as [|c s IH]; cbn; [easy|]. intros [= H]. now apply IH. Qed.

Lemma parse_one_digit c n :
  Js.parse_radix 10 (String c "") None = Some n ->
  Js.parse_radix 10 (String c "") (Some 0%N) = Some n.
Proof.
  cbn [Js.parse_radix]. destruct (Js.digit_value c) as [d|]; [|discriminate].
  destruct (d <? 10)%N; [|discriminate]. easy.
Qed.

(** The padded number is read back as the number. *)
Lemma parseInt_padStart2 z : Js.parseInt (padStart2 (Js.toString z)) = Some z.
Proof.
  destruct z as [|p|p]; [reflexivity| |].
  - pose proof (parseInt_toString (Zpos p)) as P. cbn [Js.toString] in *.
    pose proof (parse_N_toString (Npos p)) as P10.
    destruct (N_toString_shape (Npos p)) as (c & r & E & Hc & Hr). rewrite E in *.
    destruct r as [|c1 r]; [|exact P]. cbn [padStart2].
    destruct (digit_not c Hc) as (Hx & HX & _).
    unfold Js.parseInt. rewrite trimStart_ascii by (try reflexivity; cbn; lia).
    change (Ascii.eqb "0" "-") with false. change (Ascii.eqb "0" "+") with false. cbv iota.
    unfold Js.parse_unsigned. rewrite Hx, HX. cbn [orb andb].
    rewrite andb_false_r.
    change (Js.parse_radix 10 (String "0" (String c "")) None)
      with (Js.parse_radix 10 (String c "") (Some 0%N)).
    now rewrite (parse_one_digit c _ P10).
  - pose proof (parseInt_toString (Zneg p)) as P. cbn [Js.toString] in *.
    destruct (N_toString_shape (Npos p)) as (c & r & E & _). rewrite E in *. exact P.
Qed.

Lemma dateStr_day (y m d1 d2 : Z) : dateStr y m d1 = dateStr y m d2 -> d1 = d2.
Proof.
  unfold dateStr. intros H.
  do 4 apply append_inv_head in H.
  apply (f_equal Js.parseInt) in H. rewrite !parseInt_padStart2 in H. congruence.
Qed.

Lemma grid_cells s n today days st :
  omap Datatypes.id (calendarDays s n today days st) =
  map (fun d => cell today days st (Z.of_nat d)) (seq 1 n).
Proof.
  unfold calendarDays. rewrite omap_app.
  assert (omap Datatypes.id (repeat (@None Cell) s) = []) as ->
    by (induction s; [reflexivity|assumption]).
  cbn [app]. induction (seq 1 n) as [|d l IH]; [reflexivity|]. cbn. now rewrite IH.
Qed.

Lemma cell_fields today days st d :
  day (cell today days st d) = d /\
  cell_date (cell today days st d) = dateStr (currentYear st) (currentMonth st) d /\
  isToday (cell today days st d) =
    ((d =? today.2)%Z && (currentMonth st =? today.1.2 + 1)%Z
     && (currentYear st =? today.1.1)%Z).
Proof. now destruct today as [[ty tm] td]. Qed.

Lemma lookup_repeat {A} (x : A) n i : (i < n)%nat -> repeat x n !! i = Some x.
Proof.
  revert i. induction n as [|n IH]; intros [|i] H; cbn; try lia; [reflexivity|].
  apply IH. lia.
Qed.

Lemma filter_at_most_one {A} (f : A -> bool) (l : list A) :
  NoDup l ->
  (forall x y, In x l -> In y l -> f x = true -> f y = true -> x = y) ->
  (length (List.filter f l) <= 1)%nat.
Proof.
  induction 1 as [|a r Ha Hr IH]; intros Huniq; cbn [List.filter]; [cbn; lia|].
  destruct (f a) eqn:E.
  - assert (List.filter f r = []) as ->; [|cbn; lia].
    destruct (List.filter f r) as [|b t] eqn:F; [reflexivity|]. exfalso.
    assert (In b (List.filter f r)) as Hb by (rewrite F; now left).
    apply filter_In in Hb as [Hin Hb]. apply Ha.
    rewrite (Huniq a b (or_introl eq_refl) (or_intror Hin) E Hb).
    now apply list_elem_of_In.
  - apply IH. intros x y Hx Hy. apply Huniq; now right.
Qed.

(** X11: the grid of a month has the blanks of the first week followed by
    one cell per day of the month, in order; the cells carry the days
    1..n and pairwise different date keys, and at most one of them is
    marked as today. *)
Theorem calendar_grid (startDayOfWeek daysInMonth : nat) (today : Z * Z * Z)
    (days : option (list DayData)) (st : shown) :
  let grid := calendarDays startDayOfWeek daysInMonth today days st in
  let cells := omap Datatypes.id grid in
  length grid = (startDayOfWeek + daysInMonth)%nat /\
  (forall i, (i < startDayOfWeek)%nat -> grid !! i = Some None) /\
  (forall i, (i < daysInMonth)%nat ->
     grid !! (startDayOfWeek + i)%nat = Some (Some (cell today days st (Z.of_nat (S i))))) /\
  map day cells = map Z.of_nat (seq 1 daysInMonth) /\
  NoDup (map cell_date cells) /\
  (length (List.filter isToday cells) <= 1)%nat.
Proof.
  cbv zeta. rewrite grid_cells.
  assert (NoDup (map cell_date
            (map (fun d => cell today days st (Z.of_nat d)) (seq 1 daysInMonth)))) as Hkeys.
  { rewrite map_map. apply NoDup_fmap_2_strong; [|apply NoDup_seq].
    intros d1 d2 _ _ H. destruct (cell_fields today days st (Z.of_nat d1)) as (_ & E1 & _).
    destruct (cell_fields today days st (Z.of_nat d2)) as (_ & E2 & _).
    rewrite E1, E2 in H. apply dateStr_day in H. lia. }
  unfold calendarDays. repeat split.
  - now rewrite length_app, repeat_length, length_map, length_seq.
  - intros i Hi. rewrite lookup_app_l by now rewrite repeat_length.
    now apply lookup_repeat.
  - intros i Hi. rewrite lookup_app_r by (rewrite repeat_length; lia).
    rewrite repeat_length. replace (startDayOfWeek + i - startDayOfWeek)%nat with i by lia.
    change (map ?f ?l) with (f <$> l). rewrite list_lookup_fmap, lookup_seq_lt by exact Hi.
    reflexivity.
  - rewrite map_map. apply map_ext. intros d. apply cell_fields.
  - exact Hkeys.
  - apply filter_at_most_one; [exact (NoDup_fmap_1 _ _ Hkeys)|].
    intros x y Hx Hy Tx Ty.
    apply in_map_iff in Hx as (d1 & <- & _), Hy as (d2 & <- & _).
    destruct (cell_fields today days st (Z.of_nat d1)) as (_ & _ & E1).
    destruct (cell_fields today days st (Z.of_nat d2)) as (_ & _ & E2).
    rewrite E1 in Tx. rewrite E2 in Ty.
    apply andb_true_iff in Tx as [Tx _], Ty as [Ty _].
    apply andb_true_iff in Tx as [Tx _], Ty as [Ty _].
    apply Z.eqb_eq in Tx, Ty. f_equal. lia.
Qed.

Example dateStr_ex : dateStr 2024 5 7 = "2024-05-07" /\ dateStr 2024 12 31 = "2024-12-31".
Proof. split; reflexivity. Qed.

Lemma has_status_existsb s items :
  existsb (has_status s) items = true <-> exists i, i ∈ items /\ status i = Some s.
Proof.
  rewrite existsb_exists. split.
  - intros (i & Hi & H). exists i. split; [now apply list_elem_of_In|].
    unfold has_status in H. destruct (status i) as [s'|]; [|discriminate].
    apply String.eqb_eq in H. now subst.
  - intros (i & Hi & H). exists i. split; [now apply list_elem_of_In|].
    unfold has_status. rewrite H. apply String.eqb_refl.
Qed.

(** X12: the green dot of a day is shown only when nothing of the day is
    overdue or pending and something is paid; a day whose items all carry
    a status of the vocabulary shows at least one dot, a day without
    items none; and a recurring transaction without a payment status
    lights the amber dot. *)
Theorem calendar_dots (items : list Item) :
  let ds := dots items in
  (green ds = true ->
     red ds = false /\ amber ds = false /\ hasPaid items = true /\
     forall i, i ∈ items ->
       is_overdue i = false /\ status i <> Some "vencido" /\ status i <> Some "pendiente") /\
  (items <> [] -> Forall typed_item items -> red ds || amber ds || green ds = true) /\
  (items = [] -> ds = {| red := false; amber := false; green := false |}) /\
  (forall c tx, items = allItems c -> tx ∈ cell_transactions c ->
     RecurringPayments.is_recurring tx = true ->
     falsy (RecurringPayments.payment_status tx) -> amber ds = true).
Proof.
  cbv zeta. unfold dots. cbn [red amber green]. repeat split.
  - destruct (0 <? length items)%nat; [|discriminate]. cbn [andb] in *.
    now destruct (hasPaid items), (hasOverdue items).
  - destruct (0 <? length items)%nat; [|discriminate]. cbn [andb] in *.
    now destruct (hasPaid items), (hasOverdue items), (hasPending items).
  - destruct (0 <? length items)%nat; [|discriminate]. cbn [andb] in *.
    now destruct (hasPaid items).
  - destruct (0 <? length items)%nat; [|discriminate]. cbn [andb] in H.
    destruct (hasOverdue items) eqn:Ho; [now destruct (hasPaid items)|].
    unfold hasOverdue in Ho. destruct (is_overdue i) eqn:Ei; [|reflexivity].
    assert (existsb (fun i => is_overdue i || has_status "vencido" i) items = true) as C.
    { apply existsb_exists. exists i. split; [now apply list_elem_of_In|]. now rewrite Ei. }
    congruence.
  - destruct (0 <? length items)%nat; [|discriminate]. cbn [andb] in H.
    destruct (hasOverdue items) eqn:Ho; [now destruct (hasPaid items)|].
    unfold hasOverdue in Ho. intros Hs.
    assert (existsb (fun i => is_overdue i || has_status "vencido" i) items = true) as C.
    { apply existsb_exists. exists i. split; [now apply list_elem_of_In|].
      unfold has_status. rewrite Hs. cbn. apply orb_true_r. }
    congruence.
  - destruct (0 <? length items)%nat; [|discriminate]. cbn [andb] in H.
    destruct (hasPending items) eqn:Hp;
      [now destruct (hasPaid items), (hasOverdue items)|].
    intros Hs. assert (hasPending items = true) as C; [|congruence].
    apply has_status_existsb. now exists i.
  - intros Hne Htyped. destruct items as [|i r]; [congruence|].
    change (0 <? length (i :: r))%nat with true. cbn [andb].
    apply Forall_inv in Htyped as Hi. destruct Hi as (v & Hv & Hin).
    destruct (hasOverdue (i :: r)) eqn:Ho; [reflexivity|].
    destruct (hasPending (i :: r)) eqn:Hp; [reflexivity|]. cbn [orb negb andb].
    rewrite andb_true_r. unfold hasPaid, hasOverdue, hasPending in *. cbn [existsb] in *.
    apply orb_false_iff in Ho as [Ho _], Hp as [Hp _]. apply orb_false_iff in Ho as [_ Ho].
    unfold has_status in *. rewrite Hv in *.
    unfold vocabulary in Hin. rewrite !elem_of_cons in Hin.
    destruct Hin as [->|[->|[->|Hin]]]; try discriminate; [reflexivity|].
    now apply elem_of_nil in Hin.
  - now intros ->.
  - intros c tx -> Htx Hrec Hfalsy.
    assert (hasPending (allItems c) = true) as Hp.
    { apply has_status_existsb. exists (of_transaction tx). split.
      - unfold allItems. apply elem_of_app. right. apply list_elem_of_fmap.
        exists tx. split; [reflexivity|]. apply list_elem_of_In, filter_In.
        split; [now apply list_elem_of_In|exact Hrec].
      - cbn. now destruct Hfalsy as [-> | ->]. }
    rewrite Hp, andb_true_r. apply Nat.ltb_lt.
    destruct (allItems c); [discriminate Hp|cbn; lia].
Qed.

(** X13: a cell lists the first two items in order and counts the others
    in its [+N] label: what is listed and what is counted add up to the
    items of the day, and the label is absent exactly when all are
    listed. *)
Theorem listed_and_hidden (items : list Item) :
  (length (listed items) <= 2)%nat /\
  (exists rest, items = (listed items ++ rest)%list /\
                length rest = default 0%nat (more items)) /\
  (more items = None <-> listed items = items) /\
  (forall k, more items = Some k -> (0 < k)%nat).
Proof.
  unfold listed, more. repeat split.
  - rewrite length_firstn. lia.
  - exists (skipn 2 items). split; [now rewrite firstn_skipn|].
    rewrite length_skipn. destruct (Nat.ltb_spec 2 (length items)); cbn; lia.
  - destruct (Nat.ltb_spec 2 (length items)); [discriminate|].
    intros _. now apply firstn_all2.
  - intros H. destruct (Nat.ltb_spec 2 (length items)) as [C|C]; [|reflexivity].
    apply (f_equal (@length _)) in H. rewrite length_firstn in H. lia.
  - intros k. destruct (Nat.ltb_spec 2 (length items)); [|discriminate].
    intros [= <-]. lia.
Qed.

End Calendar.

Section ApiHook.

Import UseApi.

Context {D : Type}.

Lemma or_string_nonempty x y : y <> "" -> or_string x y <> "".
Proof. now destruct x as [[|c r]|]. Qed.

(** X14: a fetch that fails keeps the data shown, ends the loading, hands
    the failure on to the caller and reports a message that is never
    empty: the detail of the response when it has one, else the message
    of the failure, else a fixed text.  A fetch that succeeds stores the
    data and reports no error, whatever was reported before. *)
Theorem fetch_failure_reported (err : failure) (d : D) (st : state D) :
  let failed := fetch D (inl err) st in
  let succeeded := fetch D (inr d) st in
  snd failed = inl err /\ data D (fst failed) = data D st /\ loading D (fst failed) = false /\
  (exists m, error D (fst failed) = Some m /\ m <> "" /\
     (forall x, detail err = Some x -> x <> "" -> m = x) /\
     (falsy (detail err) -> forall x, message err = Some x -> x <> "" -> m = x) /\
     (falsy (detail err) -> falsy (message err) -> m = "An error occurred")) /\
  snd succeeded = inr d /\ data D (fst succeeded) = Some d /\
  error D (fst succeeded) = None /\ loading D (fst succeeded) = false.
Proof.
  cbv zeta. cbn. repeat split.
  exists (errorMessage err). split; [reflexivity|]. unfold errorMessage. repeat split.
  - apply or_string_nonempty, or_string_nonempty. discriminate.
  - intros x -> Hx. now destruct x.
  - intros [-> | ->] x -> Hx; now destruct x.
  - now intros [-> | ->] [-> | ->].
Qed.

End ApiHook.

Section Transactions.

Import TransactionList.

(** X15: the rows shown are the first rows of the list, in order; with a
    limit that is not negative they are as many as the limit or the whole
    list when it is shorter; a negative limit drops that many rows from
    the end; a missing list shows no row. *)
Theorem items_prefix {A} (rows : option (list A)) (limit : Z) :
  items rows limit `prefix_of` default [] rows /\
  ((0 <= limit)%Z -> count rows limit = Nat.min (Z.to_nat limit) (length (default [] rows))) /\
  ((limit < 0)%Z -> count rows limit = (length (default [] rows) - Z.to_nat (- limit))%nat) /\
  (rows = None -> items rows limit = []).
Proof.
  unfold count, items, slice0. repeat split.
  - destruct rows as [l|]; [|now exists []]. cbn.
    destruct (limit <? 0)%Z; eexists; symmetry; apply firstn_skipn.
  - intros H. destruct rows as [l|]; cbn; [|lia].
    destruct (Z.ltb_spec limit 0); [lia|]. apply length_firstn.
  - intros H. destruct rows as [l|]; cbn; [|lia].
    destruct (Z.ltb_spec limit 0); [|lia]. rewrite length_firstn. lia.
  - now intros ->.
Qed.

End Transactions.

Section Progress.

Import SavingsProgress.

Lemma Qle_bool_false x y : Qle_bool x y = false -> (y < x)%Q.
Proof.
  intros H. apply Qnot_le_lt. intros C. apply Qle_bool_iff in C. congruence.
Qed.

Ltac case_Qle :=
  repeat match goal with
  | |- context [Qle_bool ?a ?b] =>
      let E := fresh "E" in
      destruct (Qle_bool a b) eqn:E;
      [apply Qle_bool_iff in E | apply Qle_bool_false in E]
  end.

(** X16: the colour of the bar of an open goal never steps back as the
    progress grows, and the bar is as wide as the progress up to its cap
    of 100 percent. *)
Theorem progress_colour_monotone (p q : Q) :
  (p <= q)%Q ->
  (rank (progressStyle false p) <= rank (progressStyle false q))%nat /\
  (width p <= width q)%Q /\ (width q <= 100)%Q /\ (q <= 100 -> width q == q)%Q.
Proof.
  intros Hpq. unfold progressStyle, width. case_Qle.
  all: cbn [rank]; repeat split; try lia; try lra; intros; lra.
Qed.

Lemma progress_colour_monotone_witness :
  (rank (progressStyle false 30) <= rank (progressStyle false 85))%nat /\
  (width 30 <= width 85)%Q /\ (width 85 <= 100)%Q /\ (85 <= 100 -> width 85 == 85)%Q.
Proof. apply (progress_colour_monotone 30 85). unfold Qle. cbn. lia. Defined.

End Progress.

Section SavingsEdges.

Import Dashboard.
Local Open Scope R_scope.

(** X17: a checkpoint that [parseInt] cannot read gives NaN once; the same
    computation rewrites the checkpoint, so the next one returns the
    principals compounded over the time since then. *)
Theorem corrupt_checkpoint_heals accounts a0 a1 (now later : Z) (lastUpdate : string)
    (st : savings) :
  accounts !! 0%nat = Some a0 -> accounts !! 1%nat = Some a1 ->
  savingsLastUpdate st = Some lastUpdate -> lastUpdate <> "" ->
  Js.parseInt lastUpdate = None ->
  successive accounts now later st =
    Some (NaN, Num (projected [a0; a1] (IZR (later - now) / 86400000))).
Proof.
  intros H0 H1 Hst Hne Hparse.
  destruct (successive_totals accounts a0 a1 now later st H0 H1) as (first & Hfirst & ->).
  unfold calculateSavings in Hfirst. rewrite H0, H1, Hst in Hfirst.
  destruct lastUpdate as [|c r]; [congruence|]. rewrite Hparse in Hfirst.
  cbn in Hfirst. now injection Hfirst as <-.
Qed.

Lemma corrupt_checkpoint_heals_witness :
  successive SAVINGS_ACCOUNTS 1000 87400000 (written "ayer") =
    Some (NaN, Num (projected SAVINGS_ACCOUNTS (IZR (87400000 - 1000) / 86400000))).
Proof.
  apply (corrupt_checkpoint_heals SAVINGS_ACCOUNTS _ _ 1000 87400000 "ayer" (written "ayer")
           eq_refl eq_refl eq_refl); [discriminate|reflexivity].
Defined.

Lemma Rpower_grows e x y : 1 <= e -> x <= y -> 0 <= x -> 1 <= Rpower e x <= Rpower e y.
Proof.
  intros He Hxy Hx. split; [|now apply Rle_Rpower].
  rewrite <- (Rpower_zero e). now apply Rle_Rpower.
Qed.

(** X18: with principals and rates that are not negative and a checkpoint
    that is not in the future, the total is at least the sum of the two
    principals, and of two times after the checkpoint the later one gives
    the larger total. *)
Theorem savings_never_shrink accounts a0 a1 (last now later : Z) (st : savings) :
  accounts !! 0%nat = Some a0 -> accounts !! 1%nat = Some a1 ->
  savingsLastUpdate st = Some (Js.toString last) ->
  0 <= principal a0 -> 0 <= principal a1 -> 0 <= annualRate a0 -> 0 <= annualRate a1 ->
  (last <= now <= later)%Z ->
  exists total total',
    fst <$> calculateSavings accounts now st = Some (Num total) /\
    fst <$> calculateSavings accounts later st = Some (Num total') /\
    principal a0 + principal a1 <= total <= total'.
Proof.
  intros H0 H1 Hst Hp0 Hp1 Hr0 Hr1 [Hnow Hlater].
  rewrite !(calculateSavings_checkpoint _ _ _ _ _ _ H0 H1 Hst). cbv zeta.
  eexists _, _. split; [reflexivity|]. split; [reflexivity|].
  assert (0 <= IZR (now - last) / 86400000) as Hd.
  { apply Rmult_le_pos; [apply IZR_le; lia|lra]. }
  assert (IZR (now - last) / 86400000 <= IZR (later - last) / 86400000) as Hdd.
  { apply Rmult_le_compat_r; [lra|apply IZR_le; lia]. }
  destruct (Rpower_grows (1 + annualRate a0 / 365) _ _ ltac:(lra) Hdd Hd) as [G0 G0'].
  destruct (Rpower_grows (1 + annualRate a1 / 365) _ _ ltac:(lra) Hdd Hd) as [G1 G1'].
  split; nra.
Qed.

Lemma savings_never_shrink_witness :
  exists total total',
    fst <$> calculateSavings SAVINGS_ACCOUNTS 86400000 (checkpoint 0) = Some (Num total) /\
    fst <$> calculateSavings SAVINGS_ACCOUNTS 172800000 (checkpoint 0) = Some (Num total') /\
    25000 + 2771157 / 100 <= total <= total'.
Proof.
  apply (savings_never_shrink SAVINGS_ACCOUNTS _ _ 0 86400000 172800000 (checkpoint 0)
           eq_refl eq_refl eq_refl); cbn [principal annualRate]; try lra. lia.
Defined.

End SavingsEdges.

Section Footers.

Import RecurringPayments.

Lemma fallback_unused days e :
  e ∈ allRecurring days ->
  (PaymentPanels.or_number (monthlyTotal e) (amount e) == monthlyTotal e)%Q.
Proof.
  intros He. destruct (allRecurring_elem days e He) as (day & tx & n & _ & ->).
  unfold build, count_of. rewrite lookup_insert_eq. cbn [monthlyTotal amount seed pd_amount].
  unfold PaymentPanels.or_number.
  destruct (isWeekly (description tx) (S n)).
  - destruct (Qeq_bool (tx_amount tx * inject_Z (Z.of_nat (S n))) 0) eqn:E; [|reflexivity].
    apply Qeq_bool_iff in E. rewrite E.
    apply Qmult_integral in E as [E|E]; [exact E|].
    exfalso. unfold Qeq, inject_Z in E. cbn in E. lia.
  - now destruct (Qeq_bool (tx_amount tx) 0).
Qed.

Lemma fold_left_sum {A} (f g : A -> Q) (l : list A) (a : Q) :
  Forall (fun p => (f p == g p)%Q) l ->
  (fold_left (fun s p => s + f p) l a == a + foldr (fun p s => g p + s) 0 l)%Q.
Proof.
  intros H. revert a. induction H as [|p r Hp _ IH]; intros a; cbn [fold_left foldr].
  - ring.
  - rewrite IH, Hp. ring.
Qed.

(** X19: the footer of the recurring panel is the sum of the monthly totals
    of the aggregated list: the fallback to the amount never changes
    it. *)
Theorem footer_is_monthly_sum (days : list CalendarDay) :
  (PaymentPanels.totalMonthly (allRecurring days) == monthly_sum (allRecurring days))%Q.
Proof.
  unfold PaymentPanels.totalMonthly, monthly_sum.
  rewrite (fold_left_sum _ monthlyTotal).
  - ring.
  - apply Forall_forall. intros e He. now apply (fallback_unused days).
Qed.

Import PendingPayments.

Lemma map_fixed {A} (f : A -> A) (l : list A) (x : A) : map f l = l -> x ∈ l -> f x = x.
Proof.
  induction l as [|a r IH]; intros H Hx; [now apply elem_of_nil in Hx|].
  cbn in H. injection H as Ha Hr. apply elem_of_cons in Hx as [->|Hx]; auto.
Qed.

(** X20: when the update of a due item fails and the refetch of its handler
    fails as well, the status that was never confirmed stays on the
    screen: the list is the optimistic one, not the one from before, and
    the only trace is the error of the fetch. *)
Theorem double_failure_keeps_optimistic (paymentId newStatus : string) (st : state) :
  let st' := updateStatus paymentId newStatus false None st in
  payments st' = optimistic paymentId newStatus (payments st) /\
  error st' = Some "Error al cargar pagos" /\ loading st' = false /\
  (forall p, p ∈ payments st -> id p = paymentId -> status p <> newStatus ->
             payments st' <> payments st /\
             with_status newStatus p ∈ payments st').
Proof.
  cbv zeta. cbn. do 3 (split; [reflexivity|]).
  intros p Hp Hid Hst. apply String.eqb_eq in Hid. split.
  - intros E. apply (map_fixed _ _ p) in E; [|assumption]. cbv beta in E.
    rewrite Hid in E. apply (f_equal status) in E. cbn in E. congruence.
  - apply list_elem_of_fmap. exists p. now rewrite Hid.
Qed.

End Footers.

Section CalendarCells.

Import DueCalendar.

Lemma find_unique {A} (key : A -> string) (k : string) (l : list A) (x : A) :
  NoDup (map key l) -> x ∈ l -> key x = k ->
  List.find (fun y => String.eqb (key y) k) l = Some x.
Proof.
  induction l as [|a r IH]; intros Hnd Hx Hk; [now apply elem_of_nil in Hx|].
  cbn [map] in Hnd. apply NoDup_cons in Hnd as [Ha Hr]. cbn [List.find].
  apply elem_of_cons in Hx as [<-|Hx].
  - subst k. now rewrite String.eqb_refl.
  - destruct (String.eqb_spec (key a) k) as [E|E]; [|now apply IH].
    exfalso. apply Ha. apply list_elem_of_fmap. exists x. split; [congruence|exact Hx].
Qed.

(** X21: when the days of the payload have pairwise different dates, the
    cell of a day shows the due dates, the transactions and the totals
    of the payload day whose date is the key of the cell, with empty
    lists and zeros for what that day lacks. *)
Theorem cell_shows_its_day (today : Z * Z * Z) (ds : list DayData) (st : shown) (d : Z)
    (x : DayData) :
  NoDup (map date ds) -> x ∈ ds ->
  date x = dateStr (currentYear st) (currentMonth st) d ->
  let c := cell today (Some ds) st d in
  dueDates c = default [] (due_dates x) /\
  cell_transactions c = default [] (transactions x) /\
  totalExpenses c = default 0%Q (total_expenses x) /\
  totalIncome c = default 0%Q (total_income x).
Proof.
  intros Hnd Hx Hk. cbv zeta. destruct today as [[ty tm] td]. unfold cell.
  cbn [dueDates cell_transactions totalExpenses totalIncome].
  now rewrite (find_unique date _ ds x Hnd Hx Hk).
Qed.

Lemma cell_shows_its_day_witness :
  let c := cell (2024, 11, 24)%Z (Some december_days) december 24 in
  map due_description (dueDates c) = ["Renta"] /\ cell_transactions c = [] /\
  totalExpenses c = 0%Q /\ isToday c = true.
Proof.
  cbv zeta.
  assert (NoDup (map date december_days)) as Hnd.
  { repeat (apply NoDup_cons; split;
            [cbn; rewrite ?elem_of_cons, elem_of_nil; intuition discriminate|]).
    apply NoDup_nil. exact I. }
  destruct (cell_shows_its_day (2024, 11, 24)%Z december_days december 24 _ Hnd
              (list_elem_of_lookup_2 december_days 1 _ eq_refl) eq_refl)
    as (H1 & H2 & H3 & _).
  rewrite H1, H2, H3. repeat split.
Defined.

(** A day that the payload lacks, or a missing payload, gives an empty
    cell. *)
Example empty_cells :
  let c := cell (2024, 11, 24)%Z (Some december_days) december 6 in
  let c' := cell (2024, 11, 24)%Z None december 5 in
  (dueDates c, cell_transactions c, totalExpenses c, isToday c) = ([], [], 0%Q, false) /\
  (dueDates c', cell_transactions c', totalExpenses c') = ([], [], 0%Q).
Proof. split; reflexivity. Qed.

End CalendarCells.

Section TableExamples.

Import CryptoPortfolio InvestmentsPortfolio.

(** The table starts sorted by value, largest first; rows of equal value
    keep the order of the portfolio. *)
Example initial_sort_ex :
  symbols (sortedPortfolioData initialSort (portfolioData two_quotes)) =
    ["XRP"; "LINK"; "PEPE"; "SUI"; "ONDO"; "POPCAT"; "UNI"; "AERO"; "ARB"] /\
  symbols (sortedPortfolioData {| key := Some Value; direction := "asc" |}
             (portfolioData two_quotes)) =
    ["PEPE"; "SUI"; "ONDO"; "POPCAT"; "UNI"; "AERO"; "ARB"; "LINK"; "XRP"].
Proof. split; vm_compute; reflexivity. Qed.

Import SavingsProgress.

(** A goal without [progress_percent] shows an empty red bar. *)
Example goal_without_progress :
  progressStyle false (progress None) = Red /\ width (progress None) = 0%Q /\
  progressStyle false (progress (Some 64%Q)) = Blue /\ width (progress (Some 250%Q)) = 100%Q.
Proof. repeat split. Qed.

End TableExamples.
